(** * Shared pixel grid: the WebSocket synchronisation core of backend/index.js

    The development embeds the part of [src/backend/index.js] that owns the
    shared grid: the module-level [gridState] object, the
    [wss.on("connection")] handler and the per-socket [ws.on("message")] and
    [ws.on("close")] handlers.  Handlers are written in a small state and
    exception monad over the server's mutable store, so that each definition
    can be read next to the JavaScript it comes from. *)

From stdpp Require Import gmap strings list fin_maps.

Local Open Scope string_scope.
Local Set Warnings "-register-all".

(** ** JavaScript values that can come out of [JSON.parse]

    A Number is represented by the text [Number::toString] gives for it
    ("0" for both zeros, "5", "1.5", "1e+21", ...), which identifies it up to
    the sign of zero.  An object carries the members of its JSON text in
    order; when a name is repeated the last member wins, as in [JSON.parse]. *)

Inductive value : Type :=
| VNull
| VBool (b : bool)
| VNum (repr : string)
| VStr (s : string)
| VArr (items : list value)
| VObj (members : list (string * value)).

(** Exceptions the handlers can meet. *)
Inductive exn : Type :=
| SyntaxError      (* JSON.parse on text that is not JSON *)
| TypeError        (* property read on null, object not convertible to a key *)
| NotOpenError.    (* ws: send() while the socket is still CONNECTING *)

Inductive completion (A : Type) : Type :=
| Normal (a : A)
| Throw (e : exn).
Arguments Normal {A} a.
Arguments Throw {A} e.

(** [ToBoolean], on the result of a property read ([None] is [undefined]). *)
Definition ToBoolean (v : option value) : bool :=
  match v with
  | None => false
  | Some VNull => false
  | Some (VBool b) => b
  | Some (VNum repr) => negb (String.eqb repr "0") && negb (String.eqb repr "NaN")
  | Some (VStr s) => negb (String.eqb s "")
  | Some (VArr _) => true
  | Some (VObj _) => true
  end.

(** Own property of a parsed object: the last member with that name. *)
Fixpoint own_property (name : string) (members : list (string * value)) : option value :=
  match members with
  | [] => None
  | (n, v) :: rest =>
      match own_property name rest with
      | Some w => Some w
      | None => if String.eqb n name then Some v else None
      end
  end.

Definition has_own_property (name : string) (members : list (string * value)) : bool :=
  match own_property name members with Some _ => true | None => false end.

(** The four properties the message handler reads from [data]. *)
Inductive field : Type := f_type | f_key | f_color | f_username.

Definition field_name (f : field) : string :=
  match f with
  | f_type => "type"
  | f_key => "key"
  | f_color => "color"
  | f_username => "username"
  end.

(** [data.type], [data.key], [data.color], [data.username].  Reading a
    property of [null] throws; primitives and arrays have none of the four
    names on their prototypes; an object answers with its own member, and
    [Object.prototype] defines none of the four names. *)
Definition Get (data : value) (f : field) : completion (option value) :=
  match data with
  | VNull => Throw TypeError
  | VObj members => Normal (own_property (field_name f) members)
  | _ => Normal None
  end.

(** [v === s] for a string literal [s]. *)
Definition strict_equals (v : option value) (s : string) : bool :=
  match v with
  | Some (VStr t) => String.eqb t s
  | _ => false
  end.

(** [ToPropertyKey] on a parsed value, as [gridState[data.key]] applies it.
    Arrays go through [Array.prototype.join] (null elements print as the
    empty string); a plain object prints as "[object Object]" unless it has
    an own member "toString", which is not callable and leaves
    [OrdinaryToPrimitive] with nothing to return: a TypeError ([None]). *)
Fixpoint ToPropertyKey (v : value) : option string :=
  match v with
  | VNull => Some "null"
  | VBool true => Some "true"
  | VBool false => Some "false"
  | VNum repr => Some repr
  | VStr s => Some s
  | VArr items =>
      (fix join (l : list value) : option string :=
         match l with
         | [] => Some ""
         | x :: rest =>
             let elt := match x with VNull => Some "" | _ => ToPropertyKey x end in
             match rest with
             | [] => elt
             | _ :: _ =>
                 match elt, join rest with
                 | Some a, Some b => Some (a ++ "," ++ b)
                 | _, _ => None
                 end
             end
         end) items
  | VObj members =>
      if has_own_property "toString" members then None
      else Some "[object Object]"
  end.

(** [ToString], as a template literal applies it to a substitution.  On
    the values of a JSON text it takes the same steps as [ToPropertyKey]:
    an object goes through [ToPrimitive] with hint string in both. *)
Definition ToString (v : value) : option string := ToPropertyKey v.

(** ** The grid object

    [gridState] is a plain object literal: its own properties are the placed
    cells, and every other read falls through to [Object.prototype]. *)

Record occupant : Type := Occupant { color : value; username : value }.

(** Property names defined on [Object.prototype] (ECMAScript, with the
    Annex B accessors Node.js ships).  Each one reads as a function or, for
    "__proto__", as the prototype object itself: all truthy. *)
Definition Object_prototype_keys : list string :=
  [ "constructor"; "hasOwnProperty"; "isPrototypeOf"; "propertyIsEnumerable";
    "toLocaleString"; "toString"; "valueOf"; "__proto__";
    "__defineGetter__"; "__defineSetter__"; "__lookupGetter__"; "__lookupSetter__" ].

(** What a read [gridState[k]] evaluates to. *)
Inductive slot : Type :=
| Own (o : occupant)     (* an own property: the occupant object *)
| Inherited              (* found on Object.prototype *)
| Undefined.

Definition inherited (k : string) : bool :=
  existsb (String.eqb k) Object_prototype_keys.

Definition grid_read (grid : gmap string occupant) (k : string) : slot :=
  match grid !! k with
  | Some o => Own o
  | None => if inherited k then Inherited else Undefined
  end.

Definition slot_truthy (x : slot) : bool :=
  match x with
  | Own _ => true
  | Inherited => true
  | Undefined => false
  end.

(** ** Messages the server sends

    The two objects the handlers build, [{ type: "init", grid }] and
    [{ type: "cellUpdate", key, color, username }].  The same type holds a
    frame on the wire, as the object its JSON text denotes. *)

Inductive outbound : Type :=
| Init (grid : gmap string occupant)
| CellUpdate (key c u : value).

(** ** [JSON.stringify]

    Of the values [JSON.parse] can produce, [JSON.stringify] writes all but
    one kind back as they were: a Number that is not finite (the literal
    1e999 parses to Infinity) is written as [null], at any depth.  No parsed
    value has a callable [toJSON], and none is cyclic, so nothing throws. *)

Definition non_finite (repr : string) : bool :=
  String.eqb repr "Infinity" || String.eqb repr "-Infinity" || String.eqb repr "NaN".

(** The value the text [JSON.stringify(v)] denotes.  An object stays in the
    representation it has here, the members of the text it was parsed from:
    what is written has one member for each name, with the value of the
    last, which is the same object. *)
Fixpoint stringified (v : value) : value :=
  match v with
  | VNum repr => if non_finite repr then VNull else VNum repr
  | VArr items => VArr (map stringified items)
  | VObj members => VObj (map (fun m => match m with (n, x) => (n, stringified x) end) members)
  | _ => v
  end.

Definition stringified_occupant (o : occupant) : occupant :=
  {| color := stringified (color o); username := stringified (username o) |}.

(** [JSON.stringify(msg)], as the frame that goes out.  The grid object has
    only own data properties, one per placed cell, and each is an occupant
    object. *)
Definition JSON_stringify (msg : outbound) : outbound :=
  match msg with
  | Init grid => Init (stringified_occupant <$> grid)
  | CellUpdate key c u => CellUpdate (stringified key) (stringified c) (stringified u)
  end.


(** ** Sockets and the server store *)

Definition CONNECTING : nat := 0.
Definition OPEN : nat := 1.
Definition CLOSING : nat := 2.
Definition CLOSED : nat := 3.

(** A [WebSocket] object of the ws package, as far as the handlers see it.
    [sent] logs the frames [send] handed to the transport, [delivered] the
    frames the transport brought to the peer; [listening] says whether the
    connection handler has attached the message and close listeners. *)
Record WebSocket : Type := Socket {
  readyState : nat;
  transport_ok : bool;
  sent : list outbound;
  delivered : list outbound;
  listening : bool
}.

(** The store: [gridState], the heap of socket objects, and [wss.clients]
    (a Set, kept as the list of references in insertion order). *)
Record Server : Type := Store {
  gridState : gmap string occupant;
  sockets : gmap nat WebSocket;
  clients : list nat
}.

Definition initial : Server :=
  {| gridState := ∅; sockets := ∅; clients := [] |}.

(** ** The handler monad: state that survives a throw *)

Definition JS (A : Type) : Type := Server -> Server * completion A.

Definition ret {A} (a : A) : JS A := fun s => (s, Normal a).

Definition bind {A B} (m : JS A) (k : A -> JS B) : JS B :=
  fun s =>
    match m s with
    | (s', Normal a) => k a s'
    | (s', Throw e) => (s', Throw e)
    end.

Definition throw {A} (e : exn) : JS A := fun s => (s, Throw e).

Definition lift {A} (c : completion A) : JS A := fun s => (s, c).

Declare Scope js_scope.
Delimit Scope js_scope with js.
Notation "x <- m ;; k" := (bind m (fun x => k))
  (at level 100, m at next level, right associativity) : js_scope.
Notation "m ;; k" := (bind m (fun _ => k))
  (at level 100, right associativity) : js_scope.
Local Open Scope js_scope.

Definition gets {A} (f : Server -> A) : JS A := fun s => (s, Normal (f s)).

Definition modify (f : Server -> Server) : JS unit := fun s => (f s, Normal tt).

(** ** What arrives on a socket

    The message event carries raw data; the handler's first act is
    [JSON.parse], which either throws a SyntaxError or yields a value.  A
    frame is modelled by that outcome. *)
Inductive RawData : Type :=
| NotJSON
| JSONText (data : value).

Definition JSON_parse (message : RawData) : completion value :=
  match message with
  | NotJSON => Throw SyntaxError
  | JSONText data => Normal data
  end.

(** ** The ws package, as the handlers use it *)

Definition transmit (msg : outbound) (sock : WebSocket) : WebSocket :=
  {| readyState := readyState sock;
     transport_ok := transport_ok sock;
     sent := sent sock ++ [msg];
     delivered := if transport_ok sock then delivered sock ++ [msg] else delivered sock;
     listening := listening sock |}.

Definition set_sockets (h : gmap nat WebSocket) (s : Server) : Server :=
  {| gridState := gridState s; sockets := h; clients := clients s |}.

Definition set_clients (l : list nat) (s : Server) : Server :=
  {| gridState := gridState s; sockets := sockets s; clients := l |}.

Definition set_gridState (g : gmap string occupant) (s : Server) : Server :=
  {| gridState := g; sockets := sockets s; clients := clients s |}.

(** [client.readyState].  A reference always points into the heap; for an
    id the heap does not hold, the model answers as for a closed socket. *)
Definition get_readyState (ws : nat) : JS nat :=
  gets (fun s => match sockets s !! ws with
                 | Some sock => readyState sock
                 | None => CLOSED
                 end).

(** [ws.send(data)] without a callback: throws while CONNECTING, does
    nothing once the socket is CLOSING or CLOSED, and otherwise hands the
    data to the transport.  A transport that fails does so after [send] has
    returned; the data is then lost for that peer only.  An id the heap does
    not hold is treated like a closed socket. *)
Definition send (ws : nat) (msg : outbound) : JS unit :=
  fun s =>
    match sockets s !! ws with
    | None => (s, Normal tt)
    | Some sock =>
        if Nat.eqb (readyState sock) CONNECTING then (s, Throw NotOpenError)
        else if Nat.eqb (readyState sock) OPEN
             then (set_sockets (<[ws := transmit msg sock]> (sockets s)) s, Normal tt)
             else (s, Normal tt)
    end.

(** [ws.on("message", ...)] and [ws.on("close", ...)] *)
Definition attach_listeners (ws : nat) : JS unit :=
  modify (fun s =>
    set_sockets (alter (fun sock =>
      {| readyState := readyState sock; transport_ok := transport_ok sock;
         sent := sent sock; delivered := delivered sock;
         listening := true |}) ws (sockets s)) s).

(** [Set.prototype.forEach]: every element once, in insertion order; a
    throw in the callback ends the iteration. *)
Fixpoint forEach (f : nat -> JS unit) (l : list nat) : JS unit :=
  match l with
  | [] => ret tt
  | client :: rest => f client ;; forEach f rest
  end.

Definition clients_forEach (f : nat -> JS unit) : JS unit :=
  fun s => forEach f (clients s) s.

(** ** The handlers of index.js *)

(** Lines 77-86: the fan-out of one cellUpdate. *)
Definition broadcast (msg : outbound) : JS unit :=
  clients_forEach (fun client =>
    rs <- get_readyState client ;;
    if Nat.eqb rs OPEN then send client msg else ret tt).

(** [gridState[data.key]] *)
Definition gridState_read (key : value) : JS slot :=
  match ToPropertyKey key with
  | None => throw TypeError
  | Some k => gets (fun s => grid_read (gridState s) k)
  end.

(** [gridState[data.key] = { color, username }].  The handler reaches the
    assignment only when the read above was falsy, so the name is neither an
    own property nor one of [Object.prototype]: the assignment creates an
    own data property. *)
Definition gridState_write (key : value) (o : occupant) : JS unit :=
  match ToPropertyKey key with
  | None => throw TypeError
  | Some k => modify (fun s => set_gridState (<[k := o]> (gridState s)) s)
  end.

(** The argument of [console.log] on lines 88 and 90 is a template literal:
    each substitution goes through [ToString] in turn, and the first one
    that cannot be converted throws a TypeError.  [console.log] itself does
    not touch the store. *)
Fixpoint template_literal (substitutions : list value) : JS unit :=
  match substitutions with
  | [] => ret tt
  | v :: rest =>
      match ToString v with
      | Some _ => template_literal rest
      | None => throw TypeError
      end
  end.

Definition console_log (text : JS unit) : JS unit := text.

(** Lines 56-95: [ws.on("message", (message) => ...)].  The frame of the
    fan-out is the same text for every client, [JSON.stringify] being
    applied to the same three values each time. *)
Definition on_message (message : RawData) : JS unit :=
  match JSON_parse message with
  | Throw _ => ret tt                      (* catch (e) { ...; return; } *)
  | Normal data =>
      ty <- lift (Get data f_type) ;;
      if negb (strict_equals ty "colorCell") then ret tt else
      key <- lift (Get data f_key) ;;
      if negb (ToBoolean key) then ret tt else
      c <- lift (Get data f_color) ;;
      if negb (ToBoolean c) then ret tt else
      u <- lift (Get data f_username) ;;
      if negb (ToBoolean u) then ret tt else
      match key, c, u with
      | Some key, Some c, Some u =>
          cell <- gridState_read key ;;
          if negb (slot_truthy cell) then
            gridState_write key {| color := c; username := u |} ;;
            broadcast (JSON_stringify (CellUpdate key c u)) ;;
            console_log (template_literal [key; u])      (* line 88 *)
          else console_log (template_literal [key])      (* line 90 *)
      | _, _, _ => ret tt
      end
  end.

(** Lines 45-50 and the two [ws.on] registrations. *)
Definition on_connection (ws : nat) : JS unit :=
  grid <- gets gridState ;;
  send ws (JSON_stringify (Init grid)) ;;
  attach_listeners ws.

(** Lines 101-104: the close listener only logs. *)
Definition on_close : JS unit := ret tt.

(** ** The environment: what the ws server and the network do *)

Inductive event : Type :=
| Connect                              (* a client completes the upgrade *)
| Message (ws : nat) (message : RawData)
| TransportFail (ws : nat)             (* the link of one socket breaks *)
| Closing (ws : nat)                   (* close handshake or socket error begins *)
| Close (ws : nat).                    (* the socket has closed *)

Definition new_socket : WebSocket :=
  {| readyState := OPEN; transport_ok := true; sent := []; delivered := [];
     listening := false |}.

(** [Set.prototype.add] and [Set.prototype.delete] *)
Definition Set_add (x : nat) (l : list nat) : list nat :=
  if bool_decide (x ∈ l) then l else l ++ [x].

Definition Set_delete (x : nat) (l : list nat) : list nat :=
  filter (fun y => y ≠ x) l.

Definition set_readyState (n : nat) (sock : WebSocket) : WebSocket :=
  {| readyState := n; transport_ok := transport_ok sock; sent := sent sock;
     delivered := delivered sock; listening := listening sock |}.

Definition break_transport (sock : WebSocket) : WebSocket :=
  {| readyState := readyState sock; transport_ok := false; sent := sent sock;
     delivered := delivered sock; listening := listening sock |}.

Definition is_listening (ws : nat) (s : Server) : bool :=
  match sockets s !! ws with
  | Some sock => listening sock
  | None => false
  end.

(** One turn of the event loop.  The ws server creates the socket object in
    state OPEN and adds it to [wss.clients] before it emits "connection"; it
    removes the socket from the set when the socket closes. *)
Definition step (ev : event) : JS unit :=
  match ev with
  | Connect =>
      fun s =>
        let ws := fresh (dom (sockets s)) in
        on_connection ws
          (set_clients (Set_add ws (clients s))
             (set_sockets (<[ws := new_socket]> (sockets s)) s))
  | Message ws message =>
      fun s => if is_listening ws s then on_message message s else (s, Normal tt)
  | TransportFail ws =>
      modify (fun s => set_sockets (alter break_transport ws (sockets s)) s)
  | Closing ws =>
      modify (fun s => set_sockets (alter (set_readyState CLOSING) ws (sockets s)) s)
  | Close ws =>
      fun s =>
        let s' := set_clients (Set_delete ws (clients s))
                    (set_sockets (alter (set_readyState CLOSED) ws (sockets s)) s) in
        if is_listening ws s then on_close s' else (s', Normal tt)
  end.

(** A run of the process: an exception no handler catches ends it. *)
Fixpoint run (evs : list event) : JS unit :=
  match evs with
  | [] => ret tt
  | ev :: rest => step ev ;; run rest
  end.

(** ** Reading the handler: requests, acceptance, fan-out

    The definitions below name what the specification speaks of.  Each is
    tied to the handlers by a lemma further down. *)

(** A well-formed placement request: the guard of line 66 passes. *)
Definition as_placement (message : RawData) : option (value * value * value) :=
  match message with
  | JSONText (VObj members) =>
      if strict_equals (own_property "type" members) "colorCell" then
        match own_property "key" members,
              own_property "color" members,
              own_property "username" members with
        | Some key, Some c, Some u =>
            if ToBoolean (Some key) && ToBoolean (Some c) && ToBoolean (Some u)
            then Some (key, c, u) else None
        | _, _, _ => None
        end
      else None
  | _ => None
  end.

(** The JSON text of a placement request with exactly the four members. *)
Definition colorCell (key c u : value) : RawData :=
  JSONText (VObj [("type", VStr "colorCell"); ("key", key); ("color", c); ("username", u)]).

(** Lines 68-91, for a request that passed the guard. *)
Definition place (key c u : value) : JS unit :=
  cell <- gridState_read key ;;
  if negb (slot_truthy cell) then
    gridState_write key {| color := c; username := u |} ;;
    broadcast (JSON_stringify (CellUpdate key c u)) ;;
    console_log (template_literal [key; u])
  else console_log (template_literal [key]).

(** How line 88 completes, after the write and the fan-out: normally when
    the username can be converted to a string, with a TypeError when it
    cannot. *)
Definition logged (u : value) : completion unit :=
  match ToString u with
  | Some _ => Normal tt
  | None => Throw TypeError
  end.

(** The placement an event gets accepted in state [s], if any: the cell it
    names and the occupant it installs. *)
Definition accepts (s : Server) (ev : event) : option (string * occupant) :=
  match ev with
  | Message ws message =>
      if is_listening ws s then
        match as_placement message with
        | Some (key, c, u) =>
            match ToPropertyKey key with
            | Some k =>
                if slot_truthy (grid_read (gridState s) k) then None
                else Some (k, {| color := c; username := u |})
            | None => None
            end
        | None => None
        end
      else None
  | _ => None
  end.

(** The placements accepted along a run, in order. *)
Fixpoint accepted_log (evs : list event) (s : Server) : list (string * occupant) :=
  match evs with
  | [] => []
  | ev :: rest =>
      match step ev s with
      | (s', Normal _) => option_list (accepts s ev) ++ accepted_log rest s'
      | (_, Throw _) => option_list (accepts s ev)
      end
  end.

(** What one iteration of the fan-out does to the socket it visits. *)
Definition send_if_open (msg : outbound) (sock : WebSocket) : WebSocket :=
  if Nat.eqb (readyState sock) OPEN then transmit msg sock else sock.

Definition fan_out (msg : outbound) (l : list nat) (h : gmap nat WebSocket)
  : gmap nat WebSocket :=
  foldl (fun h client => alter (send_if_open msg) client h) h l.


(** The socket a new connection ends the connection handler with. *)
Definition greeted (grid : gmap string occupant) : WebSocket :=
  {| readyState := OPEN; transport_ok := true; sent := [Init grid];
     delivered := [Init grid]; listening := true |}.


(** The values [ToBoolean] sends to false that a JSON text can denote. *)
Definition falsy (v : value) : Prop :=
  v = VStr "" \/ v = VNull \/ v = VBool false \/ v = VNum "0".

(** ** States and messages of the worked examples *)

Definition A_request : RawData := colorCell (VStr "0,0") (VStr "red") (VStr "alice").
Definition B_request : RawData := colorCell (VStr "0,0") (VStr "blue") (VStr "bob").
Definition red_alice : occupant := {| color := VStr "red"; username := VStr "alice" |}.

(** Two clients connected, nothing placed. *)
Definition two_clients : Server := (run [Connect; Connect] initial).1.

(** The same, after the transport of the first client has failed. *)
Definition first_of_two_broken : Server :=
  (run [Connect; Connect; TransportFail 0] initial).1.

(** One client connected, and its placement at "0,0" accepted. *)
Definition one_placed : Server := (run [Connect; Message 0 A_request] initial).1.

(** ** What a socket's log adds up to *)

(** The grid a log of frames describes so far, to a peer that reads it as
    the server writes its own: an init frame sets it, a cell update adds the
    cell its key names. *)
Definition apply_outbound (view : option (gmap string occupant)) (msg : outbound)
  : option (gmap string occupant) :=
  match msg with
  | Init grid => Some grid
  | CellUpdate key c u =>
      match view, ToPropertyKey key with
      | Some grid, Some k => Some (<[k := {| color := c; username := u |}]> grid)
      | _, _ => None
      end
  end.

Definition replay (log : list outbound) : option (gmap string occupant) :=
  foldl apply_outbound None log.





(** An event whose request, if it is one, has a key that names the same
    cell after [JSON.stringify] as before.  Every string key does; the
    number 1e999 does not (it names "Infinity" and is written as null). *)
Definition key_survives (ev : event) : Prop :=
  match ev with
  | Message _ message =>
      match as_placement message with
      | Some (key, _, _) => ToPropertyKey (stringified key) = ToPropertyKey key
      | None => True
      end
  | _ => True
  end.


(** * The user store of backend/db.js

    [db.js] keeps users in one SQLite table through better-sqlite3.  The
    three statements it prepares are embedded as functions on that table;
    user names, passwords and data are strings, as the file documents them. *)

Module Db.

(** What the functions of the module throw. *)
Inductive error : Type :=
| TypeError          (* [db] is still undefined: db.prepare cannot be read *)
| NoSuchTable        (* SqliteError: no such table: users *)
| ConstraintUnique   (* SqliteError: UNIQUE constraint failed: users.username *)
| DatabaseFull       (* SqliteError: the largest rowid has been used *)
| IoError.           (* mkdirSync, new Database or db.exec failed *)

Inductive result (A : Type) : Type :=
| Ok (a : A)
| Err (e : error).
Arguments Ok {A} a.
Arguments Err {A} e.

(** A row of [users]: id INTEGER PRIMARY KEY AUTOINCREMENT, username TEXT
    UNIQUE, password TEXT, data TEXT ([None] is NULL). *)
Record row : Type := Row {
  id : Z;
  username : string;
  password : string;
  data : option string
}.

(** The table with its entry in sqlite_sequence: the largest rowid the
    table has ever held. *)
Record table : Type := Table { rows : list row; seq : Z }.

(** What is on disk under ./data. *)
Inductive disk : Type :=
| NoDirectory
| EmptyDirectory
| DatabaseFile (users : option table).   (* [None]: no users table yet *)

(** The module variable [db] ([None] before initDB has assigned it; an open
    connection carries its last insert rowid) and the disk. *)
Record world : Type := World { db : option Z; files : disk }.

(** The argument of addUser. *)
Record user : Type := User {
  user_username : string;
  user_password : string;
  user_data : option string     (* [None]: the property is absent *)
}.

(** The info object [stmt.run] returns. *)
Record info : Type := Info { changes : nat; lastInsertRowid : Z }.

Definition largest_rowid : Z := 9223372036854775807.

(** Which call of initDB the environment makes fail, if any. *)
Inductive fault : Type := NoFault | MkdirFails | OpenFails | ExecFails.

Definition and_then {A B} (m : world -> world * result A)
    (k : A -> world -> world * result B) (w : world) : world * result B :=
  match m w with
  | (w', Ok a) => k a w'
  | (w', Err e) => (w', Err e)
  end.

(** [if (!existsSync(dataDir)) mkdirSync(dataDir, { recursive: true })] *)
Definition ensure_directory (f : fault) (w : world) : world * result unit :=
  match files w with
  | NoDirectory =>
      match f with
      | MkdirFails => (w, Err IoError)
      | _ => ({| db := db w; files := EmptyDirectory |}, Ok tt)
      end
  | _ => (w, Ok tt)
  end.

(** [db = new Database('./data/database.sqlite')]: the file is created when
    it is missing, and [db] is assigned only when the constructor returns. *)
Definition open_database (f : fault) (w : world) : world * result unit :=
  match f, files w with
  | OpenFails, _ => (w, Err IoError)
  | _, NoDirectory => (w, Err IoError)
  | _, EmptyDirectory => ({| db := Some 0%Z; files := DatabaseFile None |}, Ok tt)
  | _, DatabaseFile users => ({| db := Some 0%Z; files := DatabaseFile users |}, Ok tt)
  end.

(** [db.exec(`CREATE TABLE IF NOT EXISTS users (...)`)]: an existing table
    is left as it is. *)
Definition create_table (f : fault) (w : world) : world * result unit :=
  match f, files w with
  | ExecFails, _ => (w, Err IoError)
  | _, DatabaseFile None =>
      ({| db := db w; files := DatabaseFile (Some {| rows := []; seq := 0 |}) |}, Ok tt)
  | _, DatabaseFile (Some t) => (w, Ok tt)
  | _, _ => (w, Err IoError)
  end.

(** Lines 19-38.  A failure is logged and thrown again; on success the
    function returns undefined. *)
Definition initDB (f : fault) : world -> world * result unit :=
  and_then (ensure_directory f) (fun _ =>
  and_then (open_database f) (fun _ =>
  create_table f)).

(** The table a prepared statement works on. *)
Definition users_table (w : world) : result table :=
  match db w with
  | None => Err TypeError
  | Some _ =>
      match files w with
      | DatabaseFile (Some t) => Ok t
      | _ => Err NoSuchTable
      end
  end.

(** Lines 53-61: SELECT * FROM users WHERE username = ?, first row. *)
Definition findUserByUsername (name : string) (w : world) : result (option row) :=
  match users_table w with
  | Err e => Err e
  | Ok t => Ok (List.find (fun r => String.eqb (username r) name) (rows t))
  end.

Definition max_id (l : list row) : Z := foldr (fun r m => Z.max (id r) m) 0%Z l.

(** [user.data || null] *)
Definition data_or_null (d : option string) : option string :=
  match d with
  | Some s => if String.eqb s "" then None else Some s
  | None => None
  end.

(** Lines 71-79: INSERT INTO users (username, password, data) VALUES (?, ?, ?).
    The new rowid is one more than the largest the table has ever held; a
    statement that fails changes nothing. *)
Definition addUser (u : user) (w : world) : world * result info :=
  match users_table w with
  | Err e => (w, Err e)
  | Ok t =>
      let last := Z.max (seq t) (max_id (rows t)) in
      if (largest_rowid <=? last)%Z then (w, Err DatabaseFull)
      else if existsb (fun r => String.eqb (username r) (user_username u)) (rows t)
      then (w, Err ConstraintUnique)
      else
        let r := {| id := last + 1; username := user_username u;
                    password := user_password u;
                    data := data_or_null (user_data u) |} in
        ({| db := Some (last + 1)%Z;
            files := DatabaseFile (Some {| rows := rows t ++ [r]; seq := last + 1 |}) |},
         Ok {| changes := 1; lastInsertRowid := last + 1 |})
  end.

(** Lines 87-95: UPDATE users SET data = ? WHERE username = ?. *)
Definition overwriteUserData (name newData : string) (w : world) : world * result info :=
  match users_table w with
  | Err e => (w, Err e)
  | Ok t =>
      let hit r := String.eqb (username r) name in
      let rewritten :=
        map (fun r => if hit r
                      then {| id := id r; username := username r;
                              password := password r; data := Some newData |}
                      else r) (rows t) in
      ({| db := db w; files := DatabaseFile (Some {| rows := rewritten; seq := seq t |}) |},
       Ok {| changes := length (filter (fun r => hit r = true) (rows t));
             lastInsertRowid := default 0%Z (db w) |})
  end.

(** The process ends and starts again: [db] is undefined, the disk stays. *)
Definition restart (w : world) : world := {| db := None; files := files w |}.

(** The calls a user of the module can make. *)
Inductive call : Type :=
| CallInit (f : fault)
| CallAdd (u : user)
| CallOverwrite (name newData : string)
| CallRestart.

Definition perform (c : call) (w : world) : world :=
  match c with
  | CallInit f => (initDB f w).1
  | CallAdd u => (addUser u w).1
  | CallOverwrite name newData => (overwriteUserData name newData w).1
  | CallRestart => restart w
  end.

(** The users on disk, and what the UNIQUE and PRIMARY KEY constraints and
    sqlite_sequence guarantee of them. *)
Definition stored (w : world) : list row :=
  match files w with
  | DatabaseFile (Some t) => rows t
  | _ => []
  end.

Definition consistent (w : world) : Prop :=
  NoDup (username <$> stored w) /\ NoDup (id <$> stored w).

End Db.

(** * The routes of backend/index.js

    bcrypt and jsonwebtoken are taken as they are given: [bcrypt_hash salt p]
    is what bcrypt.hash(p, 10) resolves to when it draws [salt],
    [bcrypt_compare p h] what bcrypt.compare(p, h) resolves to, and
    [jwt_sign name secret now] what jwt.sign({ username: name }, secret,
    { expiresIn: "1h" }) returns at time [now]. *)

Module Http.

Inductive body : Type :=
| ErrorBody (error : string)        (* { error: ... } *)
| MessageBody (message : string)    (* { message: ... } *)
| TokenBody (token : string).       (* { token } *)

Record response : Type := Response { status : nat; json : body }.

(** Where the register handler stands when it first gives up control: it
    has answered, or it is waiting for bcrypt.hash. *)
Inductive pending : Type :=
| Answered (r : response)
| AwaitingHash (name pass : string).

(** [process.env.PORT || 5000] *)
Inductive port : Type :=
| PortNumber (n : nat)
| PortString (s : string).

Definition PORT (env_PORT : option string) : port :=
  match env_PORT with
  | Some s => if String.eqb s "" then PortNumber 5000 else PortString s
  | None => PortNumber 5000
  end.



Section Handlers.

Variable bcrypt_hash : nat -> string -> string.
Variable bcrypt_compare : string -> string -> bool.
Variable jwt_sign : string -> string -> nat -> string.

(** Lines 114-120. *)
Definition generateToken (JWT_SECRET : option string) (now : nat) (user : Db.row)
  : string :=
  jwt_sign (Db.username user)
    (match JWT_SECRET with
     | Some s => if String.eqb s "" then "secretkey" else s
     | None => "secretkey"
     end)
    now.

(** Lines 136-149: the body is read, validated and the name looked up.
    [None] is a member the body does not have. *)
Definition register_lookup (name pass : option string) (w : Db.world) : pending :=
  match name, pass with
  | Some name, Some pass =>
      if String.eqb name "" || String.eqb pass "" then
        Answered {| status := 400; json := ErrorBody "Username and password required" |}
      else
        match Db.findUserByUsername name w with
        | Db.Err _ =>
            Answered {| status := 500; json := ErrorBody "Internal server error" |}
        | Db.Ok (Some _) =>
            Answered {| status := 409; json := ErrorBody "Username already exists" |}
        | Db.Ok None => AwaitingHash name pass
        end
  | _, _ =>
      Answered {| status := 400; json := ErrorBody "Username and password required" |}
  end.

(** Lines 153-164: once the hash is there, the user is added. *)
Definition register_insert (salt : nat) (name pass : string) (w : Db.world)
  : Db.world * response :=
  match Db.addUser {| Db.user_username := name;
                      Db.user_password := bcrypt_hash salt pass;
                      Db.user_data := None |} w with
  | (w', Db.Ok _) =>
      (w', {| status := 200; json := MessageBody "User registered successfully" |})
  | (w', Db.Err _) =>
      (w', {| status := 500; json := ErrorBody "Internal server error" |})
  end.

(** The register handler when no other request comes in between. *)
Definition register (salt : nat) (name pass : option string) (w : Db.world)
  : Db.world * response :=
  match register_lookup name pass w with
  | Answered r => (w, r)
  | AwaitingHash name pass => register_insert salt name pass w
  end.

(** Lines 171-197, for a body whose username is a string.  bcrypt.compare
    rejects when the password is missing. *)
Definition login (JWT_SECRET : option string) (now : nat)
    (name : string) (pass : option string) (w : Db.world) : response :=
  match Db.findUserByUsername name w with
  | Db.Err _ => {| status := 500; json := ErrorBody "Internal server error" |}
  | Db.Ok None => {| status := 401; json := ErrorBody "Invalid username or password" |}
  | Db.Ok (Some user) =>
      match pass with
      | None => {| status := 500; json := ErrorBody "Internal server error" |}
      | Some pass =>
          if bcrypt_compare pass (Db.password user)
          then {| status := 200; json := TokenBody (generateToken JWT_SECRET now user) |}
          else {| status := 401; json := ErrorBody "Invalid username or password" |}
      end
  end.

End Handlers.

End Http.

(** * The in-memory user store of backend/userModel.js *)

Module UserModel.

Record user : Type := User {
  username : string;
  password : string;
  others : list (string * value)     (* any additional properties *)
}.

(** [users.find((user) => user.username === username)] *)
Definition findUserByUsername (name : string) (users : list user) : option user :=
  List.find (fun u => String.eqb (username u) name) users.

(** [users.push(user)] *)
Definition addUser (u : user) (users : list user) : list user := users ++ [u].

End UserModel.

(** * getUsernameFromToken of the front end's App component

    [atob] and [JSON.parse] are the browser's: [atob s] is [None] when it
    throws, and [JSON_parse_text s] is the value parsed or the exception. *)

Module App.

(** [token.split(".")] *)
Fixpoint split_dot (s : string) : list string :=
  match s with
  | EmptyString => [EmptyString]
  | String c rest =>
      if String.eqb (String c EmptyString) "." then EmptyString :: split_dot rest
      else match split_dot rest with
           | first :: more => String c first :: more
           | [] => [String c EmptyString]
           end
  end.

Section Token.

Variable atob : string -> option string.
Variable JSON_parse_text : string -> completion value.

(** [payload.username], a property read that throws on null. *)
Definition payload_username (payload : value) : completion (option value) :=
  match payload with
  | VNull => Throw TypeError
  | VObj members => Normal (own_property "username" members)
  | _ => Normal None
  end.

(** Lines 18-33.  An absent second segment reaches [atob] as the text
    "undefined"; every exception ends in the empty string. *)
Definition getUsernameFromToken (token : string) : value :=
  if String.eqb token "" then VStr ""
  else
    match atob (default "undefined" (split_dot token !! 1)) with
    | None => VStr ""
    | Some text =>
        match JSON_parse_text text with
        | Throw _ => VStr ""
        | Normal payload =>
            match payload_username payload with
            | Throw _ => VStr ""
            | Normal name => if ToBoolean name then default (VStr "") name else VStr ""
            end
        end
    end.

End Token.

End App.

(** ** Stand-ins for the worked examples of the routes

    A hash that only marks the password, the comparison that goes with it,
    and a signature that joins name and secret; an open store with no user,
    and one in which alice has registered. *)

Definition example_hash (salt : nat) (pass : string) : string := "hash:" ++ pass.
Definition example_compare (pass hash : string) : bool :=
  String.eqb (example_hash 0 pass) hash.
Definition example_sign (name secret : string) (now : nat) : string :=
  name ++ "/" ++ secret.

Definition open_store : Db.world :=
  (Db.initDB Db.NoFault {| Db.db := None; Db.files := Db.NoDirectory |}).1.

Definition alice_registered : Db.world :=
  (Http.register example_hash 0 (Some "alice") (Some "wonderland") open_store).1.

(** Whether a text has no dot in it. *)
Fixpoint dot_free (s : string) : bool :=
  match s with
  | EmptyString => true
  | String c rest => negb (String.eqb (String c EmptyString) ".") && dot_free rest
  end.

(** * Lemmas about the handlers *)

Arguments ToBoolean : simpl never.
Arguments strict_equals : simpl never.
Arguments own_property : simpl never.
Arguments ToPropertyKey : simpl never.
Arguments inherited : simpl never.
Arguments ToString : simpl never.
Arguments stringified : simpl never.

(** ** The conversions on a few inputs *)

Example key_of_number : ToPropertyKey (VNum "5") = ToPropertyKey (VStr "5").
Proof. reflexivity. Qed.

Example key_of_array :
  ToPropertyKey (VArr [VNum "1"; VNull; VArr [VStr "a"; VBool true]]) = Some "1,,a,true".
Proof. reflexivity. Qed.

Example key_of_plain_object :
  ToPropertyKey (VObj [("x", VNum "1")]) = Some "[object Object]".
Proof. reflexivity. Qed.

Example key_of_object_with_toString :
  ToPropertyKey (VObj [("toString", VStr "0,0")]) = None.
Proof. reflexivity. Qed.

Example last_member_wins :
  own_property "key" [("key", VStr "0,0"); ("key", VStr "1,1")] = Some (VStr "1,1").
Proof. reflexivity. Qed.

Example empty_grid_reads :
  grid_read ∅ "0,0" = Undefined /\ grid_read ∅ "toString" = Inherited /\
  grid_read ∅ "__proto__" = Inherited.
Proof. by vm_compute. Qed.

Example null_is_not_a_request : as_placement (JSONText VNull) = None.
Proof. reflexivity. Qed.

Example Infinity_is_written_as_null :
  stringified (VNum "Infinity") = VNull /\
  stringified (VArr [VNum "1"; VNum "-Infinity"]) = VArr [VNum "1"; VNull] /\
  stringified (VStr "Infinity") = VStr "Infinity".
Proof. by vm_compute. Qed.

Example Infinity_names_another_cell :
  ToPropertyKey (VNum "Infinity") = Some "Infinity" /\
  ToPropertyKey (stringified (VNum "Infinity")) = Some "null".
Proof. by vm_compute. Qed.

(** ** [JSON.stringify] on values without a non-finite Number *)


Lemma stringified_VStr t : stringified (VStr t) = VStr t.
Proof. reflexivity. Qed.



Section Monad.
Context {A B : Type}.

Lemma bind_lift_normal (a : A) (k : A -> JS B) s :
  bind (lift (Normal a)) k s = k a s.
Proof. reflexivity. Qed.

End Monad.

(** ** The fan-out *)

Lemma callback_alter msg client s :
  (rs <- get_readyState client ;;
   if Nat.eqb rs OPEN then send client msg else ret tt) s
  = (set_sockets (alter (send_if_open msg) client (sockets s)) s, Normal tt).
Proof.
  assert (Hid : forall f, (forall sock, sockets s !! client = Some sock -> f sock = sock) ->
                alter f client (sockets s) = sockets s).
  { intros f Hf. apply map_eq; intros i. rewrite lookup_alter.
    case_decide; [subst|done].
    destruct (sockets s !! i) as [sock|] eqn:Hi; simpl; [|done].
    by rewrite (Hf sock). }
  unfold bind, get_readyState, gets, send, ret. cbn.
  destruct (sockets s !! client) as [sock|] eqn:Hc.
  - destruct (Nat.eqb (readyState sock) OPEN) eqn:Ho.
    + rewrite Hc, Ho. apply Nat.eqb_eq in Ho as Ho'. rewrite Ho'. simpl. do 2 f_equal.
      apply map_eq; intros i. rewrite lookup_alter, lookup_insert.
      case_decide; [subst|done].
      rewrite Hc; simpl. unfold send_if_open. by rewrite Ho.
    + rewrite Hid; [by destruct s|].
      intros sock' Hs. unfold send_if_open. by simplify_eq; rewrite Ho.
  - rewrite Hid; [by destruct s|]. intros sock' Hs. congruence.
Qed.

Lemma forEach_fan_out msg l s :
  forEach (fun client =>
             rs <- get_readyState client ;;
             if Nat.eqb rs OPEN then send client msg else ret tt) l s
  = (set_sockets (fan_out msg l (sockets s)) s, Normal tt).
Proof.
  revert s. induction l as [|c l IH]; intros s; simpl.
  - by destruct s.
  - unfold bind at 1. rewrite callback_alter. rewrite IH. by destruct s.
Qed.

Lemma broadcast_fan_out msg s :
  broadcast msg s = (set_sockets (fan_out msg (clients s) (sockets s)) s, Normal tt).
Proof. unfold broadcast, clients_forEach. apply forEach_fan_out. Qed.

Lemma fan_out_notin msg l h i :
  i ∉ l -> fan_out msg l h !! i = h !! i.
Proof.
  revert h. induction l as [|c l IH]; intros h Hi; simpl; [done|].
  apply not_elem_of_cons in Hi as [Hne Hi].
  rewrite IH by done. rewrite lookup_alter. case_decide; congruence.
Qed.

Lemma fan_out_in msg l h i :
  NoDup l -> i ∈ l -> fan_out msg l h !! i = send_if_open msg <$> h !! i.
Proof.
  revert h. induction l as [|c l IH]; intros h Hnd Hi; simpl.
  - by apply elem_of_nil in Hi.
  - apply NoDup_cons in Hnd as [Hc Hnd].
    apply elem_of_cons in Hi as [->|Hi].
    + rewrite fan_out_notin by done. rewrite lookup_alter. by case_decide.
    + rewrite IH by done. rewrite lookup_alter.
      case_decide; [subst; contradiction|done].
Qed.

(** ** The message handler *)

Lemma on_message_NotJSON s : on_message NotJSON s = (s, Normal tt).
Proof. reflexivity. Qed.

Lemma on_message_null s : on_message (JSONText VNull) s = (s, Throw TypeError).
Proof. reflexivity. Qed.

Lemma on_message_placement message key c u s :
  as_placement message = Some (key, c, u) ->
  on_message message s = place key c u s.
Proof.
  unfold as_placement, on_message.
  destruct message as [|[| | | | |members]]; try discriminate. simpl.
  rewrite bind_lift_normal.
  destruct (strict_equals (own_property "type" members) "colorCell"); [simpl|discriminate].
  destruct (own_property "key" members) as [k|]; [|discriminate].
  destruct (own_property "color" members) as [c'|]; [|discriminate].
  destruct (own_property "username" members) as [u'|]; [|discriminate].
  rewrite bind_lift_normal.
  destruct (ToBoolean (Some k)); [simpl|discriminate].
  rewrite bind_lift_normal.
  destruct (ToBoolean (Some c')); [simpl|discriminate].
  rewrite bind_lift_normal.
  destruct (ToBoolean (Some u')); [simpl|discriminate].
  intros [= -> -> ->]. reflexivity.
Qed.

Lemma on_message_dropped message s :
  as_placement message = None ->
  message <> JSONText VNull ->
  on_message message s = (s, Normal tt).
Proof.
  unfold as_placement, on_message.
  destruct message as [|[| | | | |members]]; try reflexivity; [congruence|]. simpl.
  intros H _. rewrite bind_lift_normal.
  destruct (strict_equals (own_property "type" members) "colorCell"); [simpl|reflexivity].
  simpl in H. rewrite bind_lift_normal.
  destruct (own_property "key" members) as [k|]; [|reflexivity].
  destruct (ToBoolean (Some k)); [simpl|reflexivity].
  rewrite bind_lift_normal.
  destruct (own_property "color" members) as [c'|]; [|reflexivity].
  destruct (ToBoolean (Some c')); [simpl|reflexivity].
  rewrite bind_lift_normal.
  destruct (own_property "username" members) as [u'|]; [|reflexivity].
  destruct (ToBoolean (Some u')); [simpl|reflexivity].
  discriminate.
Qed.

Lemma place_unconvertible key c u s :
  ToPropertyKey key = None -> place key c u s = (s, Throw TypeError).
Proof. intros H. unfold place, bind, gridState_read. by rewrite H. Qed.

(** Line 90 cannot throw: the key it prints has been converted before. *)
Lemma log_rejected key k s :
  ToPropertyKey key = Some k -> console_log (template_literal [key]) s = (s, Normal tt).
Proof. intros H. unfold console_log, template_literal, ToString. by rewrite H. Qed.

(** Line 88 throws exactly when the username cannot be converted. *)
Lemma log_placed key u k s :
  ToPropertyKey key = Some k -> console_log (template_literal [key; u]) s = (s, logged u).
Proof.
  intros H. unfold console_log, template_literal, logged.
  unfold ToString at 1. rewrite H. by destruct (ToString u).
Qed.

Lemma logged_cases u :
  (ToString u <> None /\ logged u = Normal tt) \/
  (ToString u = None /\ logged u = Throw TypeError).
Proof. unfold logged. destruct (ToString u); [by left|by right]. Qed.

Lemma place_rejected key c u k s :
  ToPropertyKey key = Some k ->
  slot_truthy (grid_read (gridState s) k) = true ->
  place key c u s = (s, Normal tt).
Proof.
  intros H Ht. unfold place, bind, gridState_read. rewrite H. unfold gets.
  rewrite Ht. simpl. by apply (log_rejected _ k).
Qed.

Lemma place_accepted key c u k s :
  ToPropertyKey key = Some k ->
  slot_truthy (grid_read (gridState s) k) = false ->
  place key c u s =
  (set_sockets (fan_out (JSON_stringify (CellUpdate key c u)) (clients s) (sockets s))
     (set_gridState (<[k := {| color := c; username := u |}]> (gridState s)) s),
   logged u).
Proof.
  intros H Ht. unfold place, bind at 1, gridState_read. rewrite H. unfold gets.
  rewrite Ht. simpl.
  unfold bind, gridState_write. rewrite H. unfold modify.
  rewrite broadcast_fan_out. by apply (log_placed _ _ k).
Qed.

(** A cell reads as empty exactly when it is neither placed nor the name of
    a property of [Object.prototype]. *)
Lemma slot_truthy_false grid k :
  slot_truthy (grid_read grid k) = false <-> grid !! k = None /\ inherited k = false.
Proof.
  unfold grid_read. destruct (grid !! k); simpl.
  - split; [discriminate|]. by intros [? _].
  - destruct (inherited k); simpl; split; try done. by intros [_ ?].
Qed.

(** ** One turn of the event loop *)

Lemma accepts_Some s ev k o :
  accepts s ev = Some (k, o) ->
  exists ws message key,
    ev = Message ws message /\ is_listening ws s = true /\
    as_placement message = Some (key, color o, username o) /\
    ToPropertyKey key = Some k /\
    gridState s !! k = None /\ inherited k = false.
Proof.
  destruct ev as [|ws message| | |]; simpl; try discriminate.
  destruct (is_listening ws s) eqn:Hl; [|discriminate].
  destruct (as_placement message) as [[[key c] u]|] eqn:Hp; [|discriminate].
  destruct (ToPropertyKey key) as [k'|] eqn:Hk; [|discriminate].
  destruct (slot_truthy (grid_read (gridState s) k')) eqn:Ht; [discriminate|].
  intros [= <- <-]. apply slot_truthy_false in Ht as [? ?].
  exists ws, message, key. simpl. by repeat split.
Qed.

(** The four ways the message handler can go, by what the message is and
    how the cell it names reads. *)
Ltac message_cases message s :=
  let Hp := fresh "Hp" in
  let Hk := fresh "Hk" in
  let Ht := fresh "Ht" in
  destruct (as_placement message) as [[[?key ?c] ?u]|] eqn:Hp;
  [ rewrite (on_message_placement _ _ _ _ _ Hp);
    match goal with
    | key : value |- _ =>
        destruct (ToPropertyKey key) as [?k|] eqn:Hk;
        [ match goal with
          | k : string |- _ =>
              destruct (slot_truthy (grid_read (gridState s) k)) eqn:Ht;
              [ rewrite (place_rejected _ _ _ k) by done
              | rewrite (place_accepted _ _ _ k) by done ]
          end
        | rewrite place_unconvertible by done ]
    end
  | destruct message as [|[| | | | |?members]];
    first [ rewrite on_message_null | rewrite on_message_dropped by done ] ].

(** The effect of an event that is accepted, and of one that is not.  An
    accepted request has written the cell and completed the fan-out when
    line 88 decides how the handler completes. *)
Lemma step_accepted s ev k o :
  accepts s ev = Some (k, o) ->
  exists key,
    ToPropertyKey key = Some k /\
    step ev s =
    (set_sockets (fan_out (JSON_stringify (CellUpdate key (color o) (username o)))
                    (clients s) (sockets s))
       (set_gridState (<[k := o]> (gridState s)) s),
     logged (username o)).
Proof.
  intros H. apply accepts_Some in H as (ws & message & key & -> & Hl & Hp & Hk & Hg & Hi).
  exists key. split; [done|]. simpl. rewrite Hl.
  rewrite (on_message_placement _ _ _ _ _ Hp).
  rewrite (place_accepted _ _ _ k) by (done || by apply slot_truthy_false).
  by destruct o.
Qed.

(** A message that is not accepted leaves the whole store as it was. *)
Lemma step_message_not_accepted s ws message :
  accepts s (Message ws message) = None -> (step (Message ws message) s).1 = s.
Proof.
  simpl. destruct (is_listening ws s); [|done].
  message_cases message s; done.
Qed.

Lemma step_not_accepted_grid s ev :
  accepts s ev = None -> gridState (step ev s).1 = gridState s.
Proof.
  destruct ev as [|ws message|ws|ws|ws]; intros H.
  - simpl. unfold on_connection, bind, gets, send, attach_listeners, modify; simpl.
    rewrite lookup_insert_eq. reflexivity.
  - by rewrite step_message_not_accepted.
  - reflexivity.
  - reflexivity.
  - simpl. by destruct (is_listening ws s).
Qed.

Lemma step_grid s ev :
  gridState (step ev s).1 =
  match accepts s ev with
  | Some (k, o) => <[k := o]> (gridState s)
  | None => gridState s
  end.
Proof.
  destruct (accepts s ev) as [[k o]|] eqn:H.
  - apply step_accepted in H as (key & _ & ->). reflexivity.
  - by apply step_not_accepted_grid.
Qed.

(** Only the message handler throws, and only a TypeError: before it has
    written anything when the frame is null or the key cannot be converted,
    and after the write and the fan-out of an accepted request when the
    username cannot be converted. *)
Lemma step_throw s ev s' e :
  step ev s = (s', Throw e) ->
  e = TypeError /\
  exists ws message,
    ev = Message ws message /\ is_listening ws s = true /\
    ((s' = s /\ accepts s ev = None /\
      (message = JSONText VNull \/
       exists key c u, as_placement message = Some (key, c, u) /\
                       ToPropertyKey key = None)) \/
     (exists k o, accepts s ev = Some (k, o) /\ ToString (username o) = None)).
Proof.
  destruct ev as [|ws message|ws|ws|ws]; simpl.
  - unfold on_connection, bind, gets, send, attach_listeners, modify; simpl.
    rewrite lookup_insert_eq. simpl. discriminate.
  - destruct (is_listening ws s) eqn:Hl; [|discriminate].
    message_cases message s; try discriminate.
    + destruct (logged_cases u) as [[_ ->] | [Hu ->]]; [discriminate|].
      intros [= <- <-]. split; [done|]. exists ws, message. split; [done|].
      split; [done|]. right. eauto.
    + intros [= <- <-]. split; [done|]. exists ws, message. split; [done|].
      split; [done|]. left. split; [done|]. split; [done|]. right. eauto.
    + intros [= <- <-]. split; [done|]. exists ws, (JSONText VNull).
      split; [done|]. split; [done|]. left. split; [done|]. split; [done|]. by left.
  - discriminate.
  - discriminate.
  - destruct (is_listening ws s); discriminate.
Qed.

Lemma step_grid_mono s ev k o :
  gridState s !! k = Some o -> gridState (step ev s).1 !! k = Some o.
Proof.
  intros H. rewrite step_grid.
  destruct (accepts s ev) as [[k' o']|] eqn:Ha; [|done].
  apply accepts_Some in Ha as (_ & _ & _ & _ & _ & _ & _ & Hn & _).
  rewrite lookup_insert_ne; [done|]. intros ->. congruence.
Qed.

(** ** Runs *)

Lemma run_cons ev evs s :
  run (ev :: evs) s =
  match step ev s with
  | (s', Normal _) => run evs s'
  | (s', Throw e) => (s', Throw e)
  end.
Proof. reflexivity. Qed.

Lemma run_grid_mono evs s k o :
  gridState s !! k = Some o -> gridState (run evs s).1 !! k = Some o.
Proof.
  revert s. induction evs as [|ev evs IH]; intros s H; [done|].
  rewrite run_cons. pose proof (step_grid_mono s ev k o H) as H1.
  destruct (step ev s) as [s1 [[]|e]]; simpl in *; [by apply IH|done].
Qed.

Lemma accepted_log_cons ev evs s :
  accepted_log (ev :: evs) s =
  (option_list (accepts s ev) ++
   match step ev s with
   | (s', Normal _) => accepted_log evs s'
   | (_, Throw _) => []
   end)%list.
Proof. simpl. destruct (step ev s) as [s1 [[]|e]]; [done|by rewrite app_nil_r]. Qed.

(** An accepted cell was empty, and not an inherited name, when the run
    began. *)
Lemma accepted_log_fresh evs s k o :
  (k, o) ∈ accepted_log evs s -> gridState s !! k = None /\ inherited k = false.
Proof.
  revert s. induction evs as [|ev evs IH]; intros s H.
  - by apply elem_of_nil in H.
  - rewrite accepted_log_cons in H. apply elem_of_app in H as [H|H].
    + destruct (accepts s ev) as [[k' o']|] eqn:Ha; simpl in H.
      * apply list_elem_of_singleton in H as [= <- <-].
        by apply accepts_Some in Ha as (_ & _ & _ & _ & _ & _ & _ & ? & ?).
      * by apply elem_of_nil in H.
    + destruct (step ev s) as [s1 [[]|e]] eqn:Hs; [|by apply elem_of_nil in H].
      apply IH in H as [Hn Hi]. split; [|done].
      destruct (gridState s !! k) as [o'|] eqn:Hk; [|done].
      apply (step_grid_mono s ev) in Hk. rewrite Hs in Hk. simpl in Hk. congruence.
Qed.

(** Every accepted placement is in the grid when the run ends, unchanged. *)
Lemma accepted_log_lookup evs s k o :
  (k, o) ∈ accepted_log evs s -> gridState (run evs s).1 !! k = Some o.
Proof.
  revert s. induction evs as [|ev evs IH]; intros s H.
  - by apply elem_of_nil in H.
  - rewrite accepted_log_cons in H. rewrite run_cons.
    apply elem_of_app in H as [H|H].
    + destruct (accepts s ev) as [[k' o']|] eqn:Ha; simpl in H;
        [|by apply elem_of_nil in H].
      apply list_elem_of_singleton in H as [= <- <-].
      destruct (step_accepted _ _ _ _ Ha) as (key & _ & Hs).
      rewrite Hs. destruct (logged (username o)) as [[]|e].
      * apply run_grid_mono. simpl. apply lookup_insert_eq.
      * simpl. apply lookup_insert_eq.
    + destruct (step ev s) as [s1 [[]|e]] eqn:Hs; [|by apply elem_of_nil in H].
      by apply IH.
Qed.

(** The grid changes by accepted placements and by nothing else. *)
Lemma run_grid_log evs s :
  gridState (run evs s).1 =
  foldl (fun g p => <[p.1 := p.2]> g) (gridState s) (accepted_log evs s).
Proof.
  revert s. induction evs as [|ev evs IH]; intros s; [done|].
  rewrite run_cons, accepted_log_cons, foldl_app.
  pose proof (step_grid s ev) as Hg.
  destruct (step ev s) as [s1 [[]|e]] eqn:Hs; simpl in Hg.
  - rewrite IH, Hg. by destruct (accepts s ev) as [[k o]|].
  - simpl. rewrite Hg. by destruct (accepts s ev) as [[k o]|].
Qed.

Lemma accepted_log_NoDup evs s : NoDup (accepted_log evs s).*1.
Proof.
  revert s. induction evs as [|ev evs IH]; intros s; [constructor|].
  rewrite accepted_log_cons, fmap_app.
  destruct (accepts s ev) as [[k o]|] eqn:Ha; simpl.
  - destruct (step_accepted _ _ _ _ Ha) as (key & _ & Hs).
    rewrite Hs. destruct (logged (username o)) as [[]|e];
      [|apply NoDup_singleton].
    apply NoDup_cons. split; [|apply IH].
    intros Hin. apply list_elem_of_fmap in Hin as ([k' o'] & -> & Hin).
    apply accepted_log_fresh in Hin as [Hn _]. simpl in Hn.
    rewrite lookup_insert_eq in Hn. discriminate.
  - destruct (step ev s) as [s1 [[]|e]]; [apply IH|constructor].
Qed.

Lemma filter_fst_notin {V} (l : list (string * V)) k :
  k ∉ l.*1 -> filter (fun p => p.1 = k) l = [].
Proof.
  induction l as [|[k' v] l IH]; intros Hn; [done|].
  simpl in Hn. apply not_elem_of_cons in Hn as [Hne Hn].
  rewrite filter_cons. simpl. case_decide; [congruence|by apply IH].
Qed.

Lemma NoDup_fst_count {V} (l : list (string * V)) k :
  NoDup l.*1 -> length (filter (fun p => p.1 = k) l) <= 1.
Proof.
  induction l as [|[k' v] l IH]; intros Hnd; simpl; [lia|].
  apply NoDup_cons in Hnd as [Hn Hnd]. rewrite filter_cons. simpl.
  case_decide; [subst; simpl|by apply IH].
  rewrite filter_fst_notin by done. simpl. lia.
Qed.


Lemma inherited_In k : inherited k = true <-> In k Object_prototype_keys.
Proof.
  unfold inherited. rewrite existsb_exists. split.
  - intros (x & Hx & He). apply String.eqb_eq in He. by subst.
  - intros H. exists k. split; [done|]. apply String.eqb_refl.
Qed.

(** A request for a cell that reads as taken changes nothing at all. *)
Lemma step_rejected s ws message key c u k :
  as_placement message = Some (key, c, u) ->
  ToPropertyKey key = Some k ->
  slot_truthy (grid_read (gridState s) k) = true ->
  step (Message ws message) s = (s, Normal tt).
Proof.
  intros Hp Hk Ht. simpl. destruct (is_listening ws s); [|done].
  rewrite (on_message_placement _ _ _ _ _ Hp). by apply (place_rejected _ _ _ k).
Qed.

Lemma run_unchanged ev evs s : step ev s = (s, Normal tt) -> run (ev :: evs) s = run evs s.
Proof. intros H. rewrite run_cons. by rewrite H. Qed.

(** A colorCell message with a field that is absent or falsy is dropped. *)
Lemma as_placement_incomplete members :
  ToBoolean (own_property "key" members) = false \/
  ToBoolean (own_property "color" members) = false \/
  ToBoolean (own_property "username" members) = false ->
  as_placement (JSONText (VObj members)) = None.
Proof.
  intros H. unfold as_placement.
  destruct (strict_equals _ _); [|done].
  destruct (own_property "key" members) as [key|]; [|done].
  destruct (own_property "color" members) as [c|]; [|done].
  destruct (own_property "username" members) as [u|]; [|done].
  destruct H as [-> | [-> | ->]]; simpl; [done| |].
  - by rewrite andb_false_r.
  - by rewrite andb_false_r.
Qed.

Lemma step_dropped s ws members :
  as_placement (JSONText (VObj members)) = None ->
  step (Message ws (JSONText (VObj members))) s = (s, Normal tt).
Proof.
  intros H. simpl. destruct (is_listening ws s); [|done].
  by apply on_message_dropped.
Qed.

Lemma falsy_ToBoolean v : falsy v -> ToBoolean (Some v) = false.
Proof. by intros [->|[-> | [-> | ->]]]. Qed.

(** ** Connections *)

Lemma step_Connect s :
  step Connect s =
  ({| gridState := gridState s;
      sockets := <[fresh (dom (sockets s)) :=
                     greeted (stringified_occupant <$> gridState s)]> (sockets s);
      clients := Set_add (fresh (dom (sockets s))) (clients s) |},
   Normal tt).
Proof.
  simpl. unfold on_connection, bind, gets, send, attach_listeners, modify. simpl.
  rewrite lookup_insert_eq. simpl. unfold set_sockets. simpl. do 2 f_equal.
  apply map_eq; intros i. rewrite lookup_alter, !lookup_insert.
  case_decide; [subst; simpl|done]. case_decide; done.
Qed.

Lemma fresh_socket s : sockets s !! fresh (dom (sockets s)) = None.
Proof. apply not_elem_of_dom, is_fresh. Qed.

Lemma Set_add_NoDup x l : NoDup l -> NoDup (Set_add x l).
Proof.
  intros H. unfold Set_add. case_bool_decide as Hx; [done|].
  apply NoDup_app. split; [done|]. split; [|apply NoDup_singleton].
  intros y Hy ->%list_elem_of_singleton. contradiction.
Qed.

Lemma Set_add_elem x l : x ∈ Set_add x l.
Proof.
  unfold Set_add. case_bool_decide as Hx; [done|].
  apply elem_of_app. right. by apply list_elem_of_singleton.
Qed.

Lemma Set_add_elem_old x y l : y ∈ l -> y ∈ Set_add x l.
Proof.
  unfold Set_add. case_bool_decide as Hx; [done|].
  intros H. apply elem_of_app. by left.
Qed.

Lemma Set_delete_NoDup x l : NoDup l -> NoDup (Set_delete x l).
Proof. apply NoDup_filter. Qed.

(** [wss.clients] never holds a socket twice. *)
Lemma step_NoDup s ev : NoDup (clients s) -> NoDup (clients (step ev s).1).
Proof.
  intros H. destruct ev as [|ws message|ws|ws|ws].
  - rewrite step_Connect. by apply Set_add_NoDup.
  - destruct (accepts s (Message ws message)) as [[k o]|] eqn:Ha.
    + apply step_accepted in Ha as (key & _ & ->). done.
    + by rewrite step_message_not_accepted.
  - done.
  - done.
  - simpl. destruct (is_listening ws s); simpl; by apply Set_delete_NoDup.
Qed.

Lemma run_NoDup evs s : NoDup (clients s) -> NoDup (clients (run evs s).1).
Proof.
  revert s. induction evs as [|ev evs IH]; intros s H; [done|].
  rewrite run_cons. pose proof (step_NoDup s ev H) as H1.
  destruct (step ev s) as [s1 [[]|e]]; simpl in *; [by apply IH|done].
Qed.

(** The effect of an accepted request, spelled out. *)
Lemma step_accept s ws message key c u k :
  is_listening ws s = true ->
  as_placement message = Some (key, c, u) ->
  ToPropertyKey key = Some k ->
  gridState s !! k = None ->
  inherited k = false ->
  step (Message ws message) s =
  (set_sockets (fan_out (JSON_stringify (CellUpdate key c u)) (clients s) (sockets s))
     (set_gridState (<[k := {| color := c; username := u |}]> (gridState s)) s),
   logged u).
Proof.
  intros Hl Hp Hk Hn Hi. simpl. rewrite Hl.
  rewrite (on_message_placement _ _ _ _ _ Hp).
  apply place_accepted; [done|]. by apply slot_truthy_false.
Qed.


(** A property of one socket that sending keeps is kept by the fan-out. *)
Lemma fan_out_preserves (P : WebSocket -> Prop) msg l h i sock :
  (forall x, P x -> P (send_if_open msg x)) ->
  h !! i = Some sock -> P sock ->
  exists sock', fan_out msg l h !! i = Some sock' /\ P sock'.
Proof.
  intros HP. revert h sock. induction l as [|c l IH]; intros h sock Hi Hs; simpl.
  - eauto.
  - destruct (decide (c = i)) as [->|Hne].
    + apply (IH _ (send_if_open msg sock)); [|by apply HP].
      rewrite lookup_alter. case_decide; [|done]. by rewrite Hi.
    + apply (IH _ sock); [|done]. rewrite lookup_alter. by case_decide.
Qed.



(** ** What holds on keys that are not inherited names *)

(** The first-write-wins check on a cell key that is not a property name of
    [Object.prototype]: absent, the request is accepted and installs its
    occupant; present, the request changes nothing. *)
Lemma placement_on_ordinary_key s ws message key c u k :
  is_listening ws s = true ->
  as_placement message = Some (key, c, u) ->
  ToPropertyKey key = Some k ->
  inherited k = false ->
  (gridState s !! k = None ->
   accepts s (Message ws message) = Some (k, {| color := c; username := u |}) /\
   gridState (step (Message ws message) s).1
   = <[k := {| color := c; username := u |}]> (gridState s)) /\
  (is_Some (gridState s !! k) ->
   accepts s (Message ws message) = None /\
   step (Message ws message) s = (s, Normal tt)).
Proof.
  intros Hl Hp Hk Hi. split.
  - intros Hn.
    assert (accepts s (Message ws message)
            = Some (k, {| color := c; username := u |})) as Ha.
    { simpl. rewrite Hl, Hp, Hk.
      by rewrite (proj2 (slot_truthy_false _ _) (conj Hn Hi)). }
    split; [done|]. by rewrite step_grid, Ha.
  - intros [o Ho].
    assert (slot_truthy (grid_read (gridState s) k) = true) as Ht.
    { unfold grid_read. by rewrite Ho. }
    split; [|by apply (step_rejected _ _ _ key c u k)].
    simpl. by rewrite Hl, Hp, Hk, Ht.
Qed.

(** Two requests for one free ordinary cell, handled one after the other in
    either order (handlers run to completion): the first one handled is
    accepted, the second changes nothing, and the cell holds the first one's
    occupant. *)
Lemma race_first_handled_wins s ws1 ws2 m1 m2 key1 key2 c1 c2 u1 u2 k :
  is_listening ws1 s = true ->
  is_listening ws2 s = true ->
  as_placement m1 = Some (key1, c1, u1) ->
  as_placement m2 = Some (key2, c2, u2) ->
  ToPropertyKey key1 = Some k ->
  ToPropertyKey key2 = Some k ->
  gridState s !! k = None ->
  inherited k = false ->
  accepted_log [Message ws1 m1; Message ws2 m2] s
  = [(k, {| color := c1; username := u1 |})] /\
  gridState (run [Message ws1 m1; Message ws2 m2] s).1 !! k
  = Some {| color := c1; username := u1 |}.
Proof.
  intros Hl1 Hl2 Hp1 Hp2 Hk1 Hk2 Hn Hi.
  pose proof (step_accept s ws1 m1 key1 c1 u1 k Hl1 Hp1 Hk1 Hn Hi) as H1.
  destruct (placement_on_ordinary_key s ws1 m1 key1 c1 u1 k Hl1 Hp1 Hk1 Hi)
    as [Hacc _]. destruct (Hacc Hn) as [Ha1 _].
  set (s1 := set_sockets (fan_out (JSON_stringify (CellUpdate key1 c1 u1))
                            (clients s) (sockets s))
               (set_gridState (<[k := {| color := c1; username := u1 |}]> (gridState s)) s))
    in *.
  assert (gridState s1 !! k = Some {| color := c1; username := u1 |}) as Hg1
    by apply lookup_insert_eq.
  assert (slot_truthy (grid_read (gridState s1) k) = true) as Ht.
  { unfold grid_read. by rewrite Hg1. }
  pose proof (step_rejected s1 ws2 m2 key2 c2 u2 k Hp2 Hk2 Ht) as H2.
  assert (accepts s1 (Message ws2 m2) = None) as Ha2.
  { unfold accepts. destruct (is_listening ws2 s1); [|done]. by rewrite Hp2, Hk2, Ht. }
  destruct (logged u1) as [[]|e]; split.
  - rewrite accepted_log_cons, H1, Ha1. rewrite accepted_log_cons, H2, Ha2. done.
  - rewrite run_cons, H1, run_cons, H2. done.
  - rewrite accepted_log_cons, H1, Ha1. done.
  - rewrite run_cons, H1. done.
Qed.

(** * The properties of the specification *)

(** C1, at the input on which the handler departs from it: with one client
    connected and nothing placed, "toString" is absent from the grid, the
    request for it is well formed, and the handler leaves the whole store
    as it was: no insertion, nothing sent. *)
Theorem C1_absent_key_toString_rejected :
  gridState (run [Connect] initial).1 !! "toString" = None /\
  is_listening 0 (run [Connect] initial).1 = true /\
  as_placement (colorCell (VStr "toString") (VStr "red") (VStr "alice"))
  = Some (VStr "toString", VStr "red", VStr "alice") /\
  step (Message 0 (colorCell (VStr "toString") (VStr "red") (VStr "alice")))
    (run [Connect] initial).1
  = ((run [Connect] initial).1, Normal tt).
Proof. vm_compute. auto. Qed.

(** C2. First write wins, for every cell key [k] and every run from every
    state: at most one placement for [k] is accepted; once one has been
    accepted, every later placement request for [k] leaves the server as it
    was (rejected: no insertion, nothing sent); an entry of the grid keeps
    its occupant and is never removed; and the grid at the end of the run is
    the grid at its start with the accepted placements inserted. *)
Theorem C2_first_write_wins (s : Server) (evs : list event) (k : string) :
  length (filter (fun p => p.1 = k) (accepted_log evs s)) <= 1 /\
  (forall s1 evs' s2 ws message key c u,
      run evs s = (s1, Normal tt) ->
      k ∈ (accepted_log evs s).*1 ->
      run evs' s1 = (s2, Normal tt) ->
      as_placement message = Some (key, c, u) ->
      ToPropertyKey key = Some k ->
      step (Message ws message) s2 = (s2, Normal tt) /\
      accepts s2 (Message ws message) = None) /\
  (forall o, gridState s !! k = Some o -> gridState (run evs s).1 !! k = Some o) /\
  gridState (run evs s).1 =
  foldl (fun g p => <[p.1 := p.2]> g) (gridState s) (accepted_log evs s).
Proof.
  split; [|split; [|split; [|apply run_grid_log]]].
  - apply NoDup_fst_count, accepted_log_NoDup.
  - intros s1 evs' s2 ws message key c u Hrun Hin Hrun' Hp Hk.
    apply list_elem_of_fmap in Hin as ([k' o] & -> & Hin). simpl in *.
    apply accepted_log_lookup in Hin. rewrite Hrun in Hin. simpl in Hin.
    apply (run_grid_mono evs') in Hin. rewrite Hrun' in Hin. simpl in Hin.
    assert (slot_truthy (grid_read (gridState s2) k') = true) as Ht.
    { unfold grid_read. by rewrite Hin. }
    split; [by apply (step_rejected _ _ _ key c u k')|].
    simpl. destruct (is_listening ws s2); [|done]. by rewrite Hp, Hk, Ht.
  - intros o. apply run_grid_mono.
Qed.







(** C5. A message that is not JSON, or a colorCell message in which key,
    color or username is missing, is dropped: the whole store is unchanged
    (grid, every socket's sent and delivered log, the client set), the
    handler returns normally, and the run goes on as if the message had not
    come. *)
Theorem C5_malformed_message_discarded
    (s : Server) (ws : nat) (message : RawData) (evs : list event) :
  (message = NotJSON \/
   exists members,
     message = JSONText (VObj members) /\
     own_property "type" members = Some (VStr "colorCell") /\
     (own_property "key" members = None \/
      own_property "color" members = None \/
      own_property "username" members = None)) ->
  on_message message s = (s, Normal tt) /\
  step (Message ws message) s = (s, Normal tt) /\
  run (Message ws message :: evs) s = run evs s.
Proof.
  intros H.
  assert (on_message message s = (s, Normal tt)) as Hm.
  { destruct H as [-> | (members & -> & _ & H)]; [done|].
    apply on_message_dropped; [|done]. apply as_placement_incomplete.
    destruct H as [-> | [-> | ->]]; auto. }
  assert (step (Message ws message) s = (s, Normal tt)) as Hs.
  { simpl. by destruct (is_listening ws s). }
  split; [done|]. split; [done|]. by apply run_unchanged.
Qed.

Lemma C5_witness :
  step (Message 0 (JSONText (VObj [("type", VStr "colorCell"); ("key", VStr "0,0");
                                   ("username", VStr "alice")]))) initial
  = (initial, Normal tt).
Proof.
  apply (C5_malformed_message_discarded initial 0
           (JSONText (VObj [("type", VStr "colorCell"); ("key", VStr "0,0");
                            ("username", VStr "alice")])) []).
  right. eexists. split; [reflexivity|]. split; [reflexivity|].
  right. left. reflexivity.
Defined.

(** C6. The scenario, from any state with an empty grid: A joins and is
    sent init with the empty grid; A's colorCell for "0,0" is accepted, the
    grid becomes {"0,0": red, alice}, and the cellUpdate is appended to the
    log of A and of every other open client; B joins next and is sent init
    with that grid; B's colorCell for "0,0" leaves the whole store as it
    was: nothing is sent and the grid is unchanged. *)
Theorem C6_scenario (s0 : Server) :
  gridState s0 = ∅ ->
  NoDup (clients s0) ->
  exists s1 s2 s3,
    step Connect s0 = (s1, Normal tt) /\
    sockets s1 !! fresh (dom (sockets s0)) = Some (greeted ∅) /\
    sent (greeted ∅) = [Init ∅] /\
    step (Message (fresh (dom (sockets s0))) A_request) s1 = (s2, Normal tt) /\
    gridState s2 = {[ "0,0" := red_alice ]} /\
    (exists sockA,
        sockets s2 !! fresh (dom (sockets s0)) = Some sockA /\
        sent sockA =
        [Init ∅; CellUpdate (VStr "0,0") (VStr "red") (VStr "alice")]) /\
    (forall i sock,
        i ∈ clients s0 -> sockets s0 !! i = Some sock -> readyState sock = OPEN ->
        exists sock',
          sockets s2 !! i = Some sock' /\
          sent sock' =
          (sent sock ++ [CellUpdate (VStr "0,0") (VStr "red") (VStr "alice")])%list) /\
    step Connect s2 = (s3, Normal tt) /\
    fresh (dom (sockets s2)) <> fresh (dom (sockets s0)) /\
    (exists sockB,
        sockets s3 !! fresh (dom (sockets s2)) = Some sockB /\
        sent sockB = [Init {[ "0,0" := red_alice ]}]) /\
    step (Message (fresh (dom (sockets s2))) B_request) s3 = (s3, Normal tt).
Proof.
  intros Hg Hnd. set (A := fresh (dom (sockets s0))).
  set (upd := CellUpdate (VStr "0,0") (VStr "red") (VStr "alice")).
  pose proof (fresh_socket s0) as HA. fold A in HA.
  pose proof (step_Connect s0) as H1. fold A in H1. rewrite Hg in H1.
  set (s1 := {| gridState := ∅; sockets := <[A := greeted ∅]> (sockets s0);
                clients := Set_add A (clients s0) |}) in *.
  assert (step (Message A A_request) s1 =
          (set_sockets (fan_out upd (clients s1) (sockets s1))
             (set_gridState (<[ "0,0" := red_alice ]> (gridState s1)) s1), Normal tt)) as H2.
  { apply (step_accept s1 A A_request (VStr "0,0") (VStr "red") (VStr "alice") "0,0");
      try reflexivity.
    unfold is_listening. simpl. by rewrite lookup_insert_eq. }
  set (s2 := set_sockets (fan_out upd (clients s1) (sockets s1))
               (set_gridState (<[ "0,0" := red_alice ]> (gridState s1)) s1)) in *.
  assert (NoDup (clients s1)) as Hnd1 by (by apply Set_add_NoDup).
  set (B := fresh (dom (sockets s2))).
  pose proof (fresh_socket s2) as HB. fold B in HB.
  assert (B <> A) as HBA.
  { intros Heq. rewrite Heq in HB. simpl in HB.
    rewrite fan_out_in in HB; [| done | apply Set_add_elem].
    by rewrite lookup_insert_eq in HB. }
  pose proof (step_Connect s2) as H3. fold B in H3.
  exists s1, s2. eexists.
  split; [exact H1|]. split; [apply lookup_insert_eq|]. split; [done|].
  split; [exact H2|]. split; [done|]. split; [|split; [|split; [exact H3|split; [exact HBA|split]]]].
  - eexists. simpl. rewrite fan_out_in; [| done | apply Set_add_elem].
    rewrite lookup_insert_eq. simpl. split; [done|]. done.
  - intros i sock Hi Hs Ho. eexists. simpl.
    rewrite fan_out_in; [| done | by apply Set_add_elem_old].
    rewrite lookup_insert_ne by (intros ->; congruence).
    rewrite Hs. simpl. split; [done|]. unfold send_if_open. by rewrite Ho.
  - eexists. simpl. rewrite lookup_insert_eq. done.
  - apply (step_rejected _ _ _ (VStr "0,0") (VStr "blue") (VStr "bob") "0,0");
      try reflexivity.
Qed.

Lemma C6_witness :
  exists s1 s2 s3,
    step Connect initial = (s1, Normal tt) /\
    step (Message 0 A_request) s1 = (s2, Normal tt) /\
    gridState s2 = {[ "0,0" := red_alice ]} /\
    step Connect s2 = (s3, Normal tt) /\
    step (Message 1 B_request) s3 = (s3, Normal tt).
Proof.
  destruct (C6_scenario initial) as (s1 & s2 & s3 & H1 & _ & _ & H2 & Hg & _ & _ & H3 & _ & _ & H4).
  - reflexivity.
  - refine (bool_decide_unpack _ _). vm_compute. exact I.
  - exists s1, s2, s3. split; [exact H1|]. split; [exact H2|].
    split; [exact Hg|]. split; [exact H3|].
    assert (step Connect initial = (s1, Normal tt)) as E1 by exact H1.
    vm_compute in E1. injection E1 as <-.
    assert (s2 = one_placed) as ->.
    { vm_compute in H2. injection H2 as <-. reflexivity. }
    exact H4.
Defined.

(** C7. In a fan-out over [wss.clients], a socket that is OPEN is sent the
    message whatever happens on the sockets visited before it: the fan-out
    returns normally, the message is appended to the socket's sent log, and
    it reaches the peer when the socket's own transport works, also when the
    transport of a socket earlier in the set has failed (that one's delivered
    log stays as it was). *)
Theorem C7_fan_out_isolated
    (s : Server) (msg : outbound) (before after : list nat)
    (client : nat) (sock : WebSocket) :
  clients s = (before ++ client :: after)%list ->
  NoDup (clients s) ->
  sockets s !! client = Some sock ->
  readyState sock = OPEN ->
  (broadcast msg s).2 = Normal tt /\
  (exists sock',
      sockets (broadcast msg s).1 !! client = Some sock' /\
      sent sock' = (sent sock ++ [msg])%list /\
      (transport_ok sock = true -> delivered sock' = (delivered sock ++ [msg])%list)) /\
  (forall other broken,
      other ∈ before -> sockets s !! other = Some broken ->
      transport_ok broken = false ->
      exists broken',
        sockets (broadcast msg s).1 !! other = Some broken' /\
        delivered broken' = delivered broken).
Proof.
  intros Hc Hnd Hs Ho. rewrite broadcast_fan_out. simpl.
  split; [done|]. split.
  - exists (transmit msg sock). rewrite fan_out_in; [| done |].
    + rewrite Hs. simpl. unfold send_if_open. rewrite Ho. simpl.
      split; [done|]. split; [done|]. by intros ->.
    + rewrite Hc. apply elem_of_app. right. by left.
  - intros other broken Hin Hb Hbroken. rewrite fan_out_in; [| done |].
    + rewrite Hb. simpl. eexists. split; [done|]. unfold send_if_open.
      destruct (Nat.eqb _ _); [|done]. simpl. by rewrite Hbroken.
    + rewrite Hc. apply elem_of_app. by left.
Qed.

Lemma C7_witness :
  exists sock',
    sockets (broadcast (CellUpdate (VStr "0,0") (VStr "red") (VStr "alice"))
               first_of_two_broken).1 !! 1 = Some sock' /\
    delivered sock' = [Init ∅; CellUpdate (VStr "0,0") (VStr "red") (VStr "alice")].
Proof.
  destruct (C7_fan_out_isolated first_of_two_broken
              (CellUpdate (VStr "0,0") (VStr "red") (VStr "alice"))
              [0] [] 1 (greeted ∅))
    as (_ & (sock' & Hl & _ & Hd) & _).
  - reflexivity.
  - refine (bool_decide_unpack _ _). vm_compute. exact I.
  - reflexivity.
  - reflexivity.
  - exists sock'. split; [exact Hl|]. apply Hd. reflexivity.
Defined.

(** C8, at the input on which the handler departs from it: two requests
    for the unclaimed key "toString" with different colors, handled in
    either order, are both rejected; the store is unchanged, no placement is
    accepted and the grid has no entry for the key. *)
Theorem C8_race_for_toString_has_no_winner :
  gridState two_clients !! "toString" = None /\
  run [Message 0 (colorCell (VStr "toString") (VStr "red") (VStr "alice"));
       Message 1 (colorCell (VStr "toString") (VStr "blue") (VStr "bob"))] two_clients
  = (two_clients, Normal tt) /\
  run [Message 1 (colorCell (VStr "toString") (VStr "blue") (VStr "bob"));
       Message 0 (colorCell (VStr "toString") (VStr "red") (VStr "alice"))] two_clients
  = (two_clients, Normal tt) /\
  accepted_log
    [Message 0 (colorCell (VStr "toString") (VStr "red") (VStr "alice"));
     Message 1 (colorCell (VStr "toString") (VStr "blue") (VStr "bob"))] two_clients
  = [] /\
  accepted_log
    [Message 1 (colorCell (VStr "toString") (VStr "blue") (VStr "bob"));
     Message 0 (colorCell (VStr "toString") (VStr "red") (VStr "alice"))] two_clients
  = [].
Proof. vm_compute. auto. Qed.

(** C9. A cell key that names a property of [Object.prototype] cannot be
    claimed: in every state, the empty grid included, a well-formed
    placement request for it leaves the store unchanged (no insertion,
    nothing sent), and no run ever accepts it or puts it in the grid. *)
Theorem C9_inherited_names_unclaimable (k : string) :
  In k Object_prototype_keys ->
  (forall s ws message key c u,
      as_placement message = Some (key, c, u) ->
      ToPropertyKey key = Some k ->
      step (Message ws message) s = (s, Normal tt) /\
      accepts s (Message ws message) = None) /\
  (forall s evs,
      (k ∉ (accepted_log evs s).*1) /\
      (gridState s !! k = None -> gridState (run evs s).1 !! k = None)).
Proof.
  intros Hin. apply inherited_In in Hin.
  assert (forall g, slot_truthy (grid_read g k) = true) as Ht.
  { intros g. unfold grid_read. destruct (g !! k); [done|]. by rewrite Hin. }
  split.
  - intros s ws message key c u Hp Hk. split.
    + by apply (step_rejected _ _ _ key c u k).
    + simpl. destruct (is_listening ws s); [|done]. by rewrite Hp, Hk, Ht.
  - assert (forall s evs, k ∉ (accepted_log evs s).*1) as Hlog.
    { intros s evs Hk. apply list_elem_of_fmap in Hk as ([k' o] & -> & Hk).
      apply accepted_log_fresh in Hk as [_ Hk]. simpl in Hin. congruence. }
    intros s evs. split; [apply Hlog|].
    revert s. induction evs as [|ev evs IH]; intros s Hn; [done|].
    rewrite run_cons. pose proof (step_grid s ev) as Hg.
    destruct (step ev s) as [s1 [[]|e]] eqn:Hs; simpl in *.
    + apply IH. rewrite Hg. destruct (accepts s ev) as [[k' o]|] eqn:Ha; [|done].
      apply accepts_Some in Ha as (_ & _ & _ & _ & _ & _ & _ & _ & Hi).
      rewrite lookup_insert_ne; [done|]. intros ->. congruence.
    + rewrite Hg. destruct (accepts s ev) as [[k' o]|] eqn:Ha; [|done].
      apply accepts_Some in Ha as (_ & _ & _ & _ & _ & _ & _ & _ & Hi).
      rewrite lookup_insert_ne; [done|]. intros ->. congruence.
Qed.

Lemma C9_witness :
  step (Message 0 (colorCell (VStr "toString") (VStr "red") (VStr "alice"))) initial
  = (initial, Normal tt).
Proof.
  refine (proj1 (proj1 (C9_inherited_names_unclaimable "toString" _)
                   initial 0
                   (colorCell (VStr "toString") (VStr "red") (VStr "alice"))
                   (VStr "toString") (VStr "red") (VStr "alice") _ _));
    [simpl; tauto | reflexivity | reflexivity].
Defined.

(** C10. A colorCell message whose key, color and username are all present
    but one of which is the empty string, null, false or zero is dropped like
    one with a missing field: store unchanged, nothing sent, and the outcome
    is that of the message with none of the three fields. *)
Theorem C10_falsy_field_dropped
    (s : Server) (ws : nat) (members : list (string * value)) (key c u : value) :
  own_property "type" members = Some (VStr "colorCell") ->
  own_property "key" members = Some key ->
  own_property "color" members = Some c ->
  own_property "username" members = Some u ->
  falsy key \/ falsy c \/ falsy u ->
  step (Message ws (JSONText (VObj members))) s = (s, Normal tt) /\
  step (Message ws (JSONText (VObj members))) s =
  step (Message ws (JSONText (VObj [("type", VStr "colorCell")]))) s.
Proof.
  intros _ Hk Hc Hu H.
  assert (step (Message ws (JSONText (VObj members))) s = (s, Normal tt)) as Hs.
  { apply step_dropped, as_placement_incomplete. rewrite Hk, Hc, Hu.
    destruct H as [H|[H|H]]; apply falsy_ToBoolean in H; auto. }
  split; [done|]. rewrite Hs. symmetry. by apply step_dropped.
Qed.

Lemma C10_witness :
  step (Message 0 (colorCell (VStr "0,0") (VStr "") (VStr "alice"))) initial
  = (initial, Normal tt).
Proof.
  apply (C10_falsy_field_dropped initial 0
           [("type", VStr "colorCell"); ("key", VStr "0,0"); ("color", VStr "");
            ("username", VStr "alice")] (VStr "0,0") (VStr "") (VStr "alice"));
    try reflexivity.
  right. left. left. reflexivity.
Defined.

(** * Further properties of the WebSocket handlers *)






(** A key that is a string names the same cell on the wire. *)
Lemma key_survives_string ws c u t : key_survives (Message ws (colorCell (VStr t) c u)).
Proof.
  unfold key_survives.
  assert (as_placement (colorCell (VStr t) c u)
          = if ToBoolean (Some (VStr t)) && ToBoolean (Some c) && ToBoolean (Some u)
            then Some (VStr t, c, u) else None) as -> by reflexivity.
  by destruct (_ && _ && _).
Qed.

(** A key that does not: the placement lands in the cell "Infinity" of the
    grid, and the update the clients are sent names the cell "null". *)
Example Infinity_key_diverges :
  gridState (run [Connect; Message 0 (colorCell (VNum "Infinity") (VStr "red") (VStr "alice"))]
               initial).1 = {[ "Infinity" := red_alice ]} /\
  (exists sock,
      sockets (run [Connect; Message 0 (colorCell (VNum "Infinity") (VStr "red") (VStr "alice"))]
                 initial).1 !! 0 = Some sock /\
      readyState sock = OPEN /\
      sent sock = [Init ∅; CellUpdate VNull (VStr "red") (VStr "alice")] /\
      replay (sent sock) = Some {[ "null" := red_alice ]}).
Proof.
  split; [reflexivity|]. eexists. split; [reflexivity|].
  split; [reflexivity|]. split; reflexivity.
Qed.













Lemma as_placement_truthy message key c u :
  as_placement message = Some (key, c, u) ->
  ToBoolean (Some key) = true /\ ToBoolean (Some c) = true /\ ToBoolean (Some u) = true.
Proof.
  unfold as_placement. destruct message as [|[| | | | |members]]; try discriminate.
  destruct (strict_equals _ _); [|discriminate].
  destruct (own_property "key" members) as [key'|]; [|discriminate].
  destruct (own_property "color" members) as [c'|]; [|discriminate].
  destruct (own_property "username" members) as [u'|]; [|discriminate].
  destruct (ToBoolean (Some key')) eqn:Hk; [|discriminate].
  destruct (ToBoolean (Some c')) eqn:Hc; [|discriminate].
  destruct (ToBoolean (Some u')) eqn:Hu; [|discriminate].
  by intros [= <- <- <-].
Qed.

(** X3. The grid never holds a half-filled cell: after any run from the
    start of the process, every entry has a truthy color and a truthy
    username (so neither is an empty string, null, false or zero), and its
    key is not a property name of [Object.prototype]. *)
Theorem grid_entries_are_complete (evs : list event) (k : string) (o : occupant) :
  gridState (run evs initial).1 !! k = Some o ->
  ToBoolean (Some (color o)) = true /\
  ToBoolean (Some (username o)) = true /\
  inherited k = false.
Proof.
  assert (forall s,
             (forall k o, gridState s !! k = Some o ->
                          ToBoolean (Some (color o)) = true /\
                          ToBoolean (Some (username o)) = true /\
                          inherited k = false) ->
             forall k o, gridState (run evs s).1 !! k = Some o ->
                         ToBoolean (Some (color o)) = true /\
                         ToBoolean (Some (username o)) = true /\
                         inherited k = false) as Hrun.
  { induction evs as [|ev evs IH]; intros s Hinv; [done|].
    rewrite run_cons.
    assert (forall k o, gridState (step ev s).1 !! k = Some o ->
                        ToBoolean (Some (color o)) = true /\
                        ToBoolean (Some (username o)) = true /\
                        inherited k = false) as H1.
    { intros k' o'. rewrite step_grid.
      destruct (accepts s ev) as [[k1 o1]|] eqn:Ha; [|apply Hinv].
      apply accepts_Some in Ha as (_ & message & key & _ & _ & Hp & _ & _ & Hi).
      apply as_placement_truthy in Hp as (_ & Hc & Hu).
      rewrite lookup_insert. case_decide as Heq; [|apply Hinv].
      intros [= <-]. by subst. }
    destruct (step ev s) as [s1 [[]|e]]; simpl in *; [by apply IH|done]. }
  apply Hrun. intros k' o' H. simpl in H. by rewrite lookup_empty in H.
Qed.

Lemma grid_entries_are_complete_witness :
  ToBoolean (Some (VStr "red")) = true /\
  ToBoolean (Some (VStr "alice")) = true /\
  inherited "0,0" = false.
Proof.
  refine (grid_entries_are_complete [Connect; Message 0 A_request] "0,0" red_alice _).
  reflexivity.
Defined.

(** X4. Three kinds of frame end the process with an uncaught TypeError
    when they arrive on a socket with the listeners attached, and no other
    event does.  The JSON text null, on which reading [data.type] throws,
    and a request whose key is an object that cannot be converted to a
    property name, both leave the store as it was.  A request that is
    accepted but whose username cannot be converted to a string throws on
    the log line after the cell has been written and the update fanned
    out.  In each case no later event is handled. *)
Theorem uncaught_TypeError_frames
    (s : Server) (ws : nat) (message : RawData) (evs : list event) :
  is_listening ws s = true ->
  ((message = JSONText VNull \/
    exists key c u, as_placement message = Some (key, c, u) /\ ToPropertyKey key = None) ->
   on_message message s = (s, Throw TypeError) /\
   run (Message ws message :: evs) s = (s, Throw TypeError)) /\
  (forall key c u k,
      as_placement message = Some (key, c, u) ->
      ToPropertyKey key = Some k ->
      gridState s !! k = None ->
      inherited k = false ->
      ToString u = None ->
      run (Message ws message :: evs) s =
      (set_sockets (fan_out (CellUpdate (stringified key) (stringified c) (stringified u))
                      (clients s) (sockets s))
         (set_gridState (<[k := {| color := c; username := u |}]> (gridState s)) s),
       Throw TypeError)) /\
  (forall ev s0 s' e,
      step ev s0 = (s', Throw e) ->
      e = TypeError /\
      exists ws' message',
        ev = Message ws' message' /\ is_listening ws' s0 = true /\
        ((s' = s0 /\ accepts s0 ev = None /\
          (message' = JSONText VNull \/
           exists key c u, as_placement message' = Some (key, c, u) /\
                           ToPropertyKey key = None)) \/
         (exists k o, accepts s0 ev = Some (k, o) /\ ToString (username o) = None))).
Proof.
  intros Hl. split; [|split].
  - intros H.
    assert (on_message message s = (s, Throw TypeError)) as Hm.
    { destruct H as [-> | (key & c & u & Hp & Hk)]; [done|].
      rewrite (on_message_placement _ _ _ _ _ Hp). by apply place_unconvertible. }
    split; [done|]. rewrite run_cons. simpl. by rewrite Hl, Hm.
  - intros key c u k Hp Hk Hn Hi Hu.
    rewrite run_cons, (step_accept s ws message key c u k) by done.
    unfold logged. by rewrite Hu.
  - intros ev s0 s' e. apply step_throw.
Qed.

Lemma uncaught_TypeError_frames_witness :
  run [Message 0 (JSONText VNull); Message 0 A_request] two_clients
  = (two_clients, Throw TypeError) /\
  run [Message 0 (colorCell (VObj [("toString", VStr "0,0")]) (VStr "red") (VStr "alice"));
       Message 0 A_request] two_clients
  = (two_clients, Throw TypeError) /\
  (exists s',
      run [Message 0 (colorCell (VStr "0,0") (VStr "red") (VObj [("toString", VNum "1")]));
           Message 0 B_request] two_clients
      = (s', Throw TypeError) /\
      gridState s' !! "0,0"
      = Some {| color := VStr "red"; username := VObj [("toString", VNum "1")] |}).
Proof.
  split; [|split].
  - refine (proj2 (proj1 (uncaught_TypeError_frames two_clients 0 (JSONText VNull)
                            [Message 0 A_request] _) _)).
    + reflexivity.
    + left. reflexivity.
  - refine (proj2 (proj1 (uncaught_TypeError_frames two_clients 0
                     (colorCell (VObj [("toString", VStr "0,0")]) (VStr "red") (VStr "alice"))
                     [Message 0 A_request] _) _)).
    + reflexivity.
    + right. exists (VObj [("toString", VStr "0,0")]), (VStr "red"), (VStr "alice").
      split; reflexivity.
  - eexists. split.
    + refine (proj1 (proj2 (uncaught_TypeError_frames two_clients 0
                (colorCell (VStr "0,0") (VStr "red") (VObj [("toString", VNum "1")]))
                [Message 0 B_request] _))
                (VStr "0,0") (VStr "red") (VObj [("toString", VNum "1")]) "0,0" _ _ _ _ _);
        reflexivity.
    + reflexivity.
Defined.

(** X5. Valid JSON that is not a colorCell request is ignored: for every
    parsed value other than null that is not an object whose type member is
    the string "colorCell" (numbers, strings, booleans, arrays, objects of
    any other or no type), the handler returns normally and the store is
    unchanged. *)
Theorem other_frames_are_ignored (s : Server) (ws : nat) (data : value) :
  data <> VNull ->
  (forall members,
      data = VObj members ->
      own_property "type" members <> Some (VStr "colorCell")) ->
  on_message (JSONText data) s = (s, Normal tt) /\
  step (Message ws (JSONText data)) s = (s, Normal tt).
Proof.
  intros Hnull Htype.
  assert (on_message (JSONText data) s = (s, Normal tt)) as Hm.
  { apply on_message_dropped; [|congruence].
    destruct data as [| | | | |members]; try done. simpl.
    destruct (strict_equals (own_property "type" members) "colorCell") eqn:He; [|done].
    exfalso. apply (Htype members eq_refl).
    unfold strict_equals in He.
    destruct (own_property "type" members) as [[| | |t| |]|]; try discriminate.
    apply String.eqb_eq in He. by subst. }
  split; [done|]. simpl. by destruct (is_listening ws s).
Qed.

Lemma other_frames_are_ignored_witness :
  step (Message 0 (JSONText (VObj [("type", VStr "paymentConfirmed"); ("key", VStr "0,0")])))
    two_clients
  = (two_clients, Normal tt).
Proof.
  refine (proj2 (other_frames_are_ignored two_clients 0
                   (VObj [("type", VStr "paymentConfirmed"); ("key", VStr "0,0")]) _ _)).
  - discriminate.
  - intros members [= <-]. vm_compute. discriminate.
Defined.

Lemma step_not_open s ev ws sock :
  sockets s !! ws = Some sock ->
  readyState sock <> OPEN ->
  exists sock',
    sockets (step ev s).1 !! ws = Some sock' /\
    sent sock' = sent sock /\ delivered sock' = delivered sock /\
    readyState sock' <> OPEN.
Proof.
  intros Hs Hno.
  assert (forall f i,
             (forall x, sent (f x) = sent x /\ delivered (f x) = delivered x /\
                        readyState (f x) <> OPEN) ->
             exists sock', alter f i (sockets s) !! ws = Some sock' /\
                           sent sock' = sent sock /\ delivered sock' = delivered sock /\
                           readyState sock' <> OPEN) as Halter.
  { intros f i Hf. rewrite lookup_alter. case_decide; [subst|by eauto].
    rewrite Hs. simpl. eexists. split; [done|]. apply Hf. }
  destruct ev as [|ws' message|ws'|ws'|ws'].
  - rewrite step_Connect. simpl. exists sock. split; [|done].
    rewrite lookup_insert_ne; [done|]. intros Heq.
    pose proof (fresh_socket s) as Hf. rewrite Heq in Hf. congruence.
  - destruct (accepts s (Message ws' message)) as [[k o]|] eqn:Ha.
    + apply step_accepted in Ha as (key & _ & ->). simpl.
      apply (fan_out_preserves
               (fun x => sent x = sent sock /\ delivered x = delivered sock /\
                         readyState x <> OPEN) _ _ _ _ sock); [|done..].
      intros x (Hx1 & Hx2 & Hx3). unfold send_if_open.
      destruct (Nat.eqb (readyState x) OPEN) eqn:Ho; [|done].
      apply Nat.eqb_eq in Ho. contradiction.
    + rewrite step_message_not_accepted by done. eauto.
  - simpl. rewrite lookup_alter. case_decide; [subst|by eauto].
    rewrite Hs. simpl. eauto.
  - simpl. apply Halter. intros x. simpl. repeat split. discriminate.
  - assert (exists sock',
               alter (set_readyState CLOSED) ws' (sockets s) !! ws = Some sock' /\
               sent sock' = sent sock /\ delivered sock' = delivered sock /\
               readyState sock' <> OPEN) as H.
    { apply Halter. intros x. simpl. repeat split. discriminate. }
    simpl. by destruct (is_listening ws' s).
Qed.

(** X6. A socket that is no longer open is never sent anything again: from
    a state in which its [readyState] is not OPEN (the close handshake has
    begun, or it has closed), no run of further events adds to what was sent
    or delivered to it, and it does not become open again. *)
Theorem closed_socket_gets_nothing_more
    (s : Server) (ws : nat) (sock : WebSocket) (evs : list event) :
  sockets s !! ws = Some sock ->
  readyState sock <> OPEN ->
  exists sock',
    sockets (run evs s).1 !! ws = Some sock' /\
    sent sock' = sent sock /\ delivered sock' = delivered sock /\
    readyState sock' <> OPEN.
Proof.
  revert s sock. induction evs as [|ev evs IH]; intros s sock Hs Hno; [by eauto|].
  rewrite run_cons.
  destruct (step_not_open s ev ws sock Hs Hno) as (sock1 & H1 & Hs1 & Hd1 & Hn1).
  destruct (step ev s) as [s1 [[]|e]]; simpl in *.
  - destruct (IH s1 sock1 H1 Hn1) as (sock' & H' & Hs' & Hd' & Hn').
    exists sock'. split; [done|]. split; [congruence|]. split; [congruence|done].
  - eauto.
Qed.

Lemma closed_socket_gets_nothing_more_witness :
  exists sock',
    sockets (run [Message 1 A_request] (run [Connect; Connect; Close 0] initial).1).1 !! 0
    = Some sock' /\
    sent sock' = [Init ∅].
Proof.
  destruct (closed_socket_gets_nothing_more
              (run [Connect; Connect; Close 0] initial).1 0
              (set_readyState CLOSED (greeted ∅)) [Message 1 A_request])
    as (sock' & H & Hsent & _).
  - reflexivity.
  - simpl. discriminate.
  - exists sock'. split; [exact H|exact Hsent].
Defined.

(** * Properties of the user store of db.js *)

Section DbFacts.
Import Db.

Lemma find_snoc {A} (f : A -> bool) l x :
  List.find f (l ++ [x]) =
  match List.find f l with
  | Some y => Some y
  | None => if f x then Some x else None
  end.
Proof. induction l as [|y l IH]; simpl; [done|]. by destruct (f y). Qed.

Lemma find_existsb {A} (f : A -> bool) l :
  existsb f l = match List.find f l with Some _ => true | None => false end.
Proof. induction l as [|y l IH]; simpl; [done|]. by destruct (f y). Qed.

Lemma find_map_stable {A} (f : A -> bool) (g : A -> A) l :
  (forall x, f (g x) = f x) -> List.find f (map g l) = g <$> List.find f l.
Proof.
  intros Hg. induction l as [|y l IH]; simpl; [done|].
  rewrite Hg. by destruct (f y).
Qed.

Lemma find_true {A} (f : A -> bool) l x : List.find f l = Some x -> f x = true.
Proof.
  induction l as [|y l IH]; simpl; [done|].
  destruct (f y) eqn:Hy; [by intros [= <-]|done].
Qed.

Lemma max_id_ge l r : r ∈ l -> (id r <= max_id l)%Z.
Proof.
  induction l as [|y l IH]; simpl; [by intros H; apply elem_of_nil in H|].
  intros [->|H]%elem_of_cons; [lia|]. specialize (IH H). lia.
Qed.

Lemma users_table_stored w t : users_table w = Ok t -> stored w = rows t.
Proof.
  unfold users_table, stored. destruct (db w); [|done].
  by destruct (files w) as [| |[t'|]]; intros [= ->].
Qed.

Lemma initDB_stored f w : stored (initDB f w).1 = stored w.
Proof.
  destruct w as [d fs]. unfold initDB, and_then, ensure_directory, open_database,
    create_table, stored.
  by destruct f, fs as [| |[t|]].
Qed.

Lemma initDB_NoFault_ok w name :
  (initDB NoFault w).2 = Ok tt /\
  findUserByUsername name (initDB NoFault w).1
  = Ok (List.find (fun r => String.eqb (username r) name) (stored w)).
Proof.
  destruct w as [d fs]. unfold initDB, and_then, ensure_directory, open_database,
    create_table, findUserByUsername, users_table, stored.
  by destruct fs as [| |[t|]].
Qed.

(** X7. Opening the store never loses or changes a user, and when nothing
    fails it always succeeds: after initDB the connection is open, the users
    table exists and holds exactly the rows that were on disk, whether the
    directory, the file or the table were there before or not.  So the users
    registered before the process was restarted are found again.  When a
    call inside initDB fails, the users on disk are as they were, too. *)
Theorem initDB_keeps_the_users (w : world) (name : string) :
  (initDB NoFault w).2 = Ok tt /\
  (forall f, stored (initDB f w).1 = stored w) /\
  findUserByUsername name (initDB NoFault w).1
  = Ok (List.find (fun r => String.eqb (username r) name) (stored w)) /\
  findUserByUsername name (initDB NoFault (restart (initDB NoFault w).1)).1
  = findUserByUsername name (initDB NoFault w).1.
Proof.
  split; [apply (initDB_NoFault_ok w name)|].
  split; [intros f; apply initDB_stored|].
  split; [apply initDB_NoFault_ok|].
  rewrite (proj2 (initDB_NoFault_ok (restart (initDB NoFault w).1) name)),
    (proj2 (initDB_NoFault_ok w name)).
  assert (stored (restart (initDB NoFault w).1) = stored (initDB NoFault w).1) as ->
    by done.
  by rewrite initDB_stored.
Qed.

Lemma addUser_taken (u : user) (w : world) (r : row) :
  findUserByUsername (user_username u) w = Ok (Some r) ->
  exists e, addUser u w = (w, Err e) /\ (e = ConstraintUnique \/ e = DatabaseFull).
Proof.
  unfold findUserByUsername, addUser.
  destruct (users_table w) as [t|e]; [|discriminate].
  intros [= Hf]. destruct (_ <=? _)%Z; [by eauto|].
  rewrite find_existsb, Hf. by eauto.
Qed.

(** X8. addUser never replaces or duplicates a user: when a user with the
    name is already stored, the call throws (the UNIQUE constraint, or
    SQLITE_FULL when the rowids are used up) and the store is unchanged,
    whatever password and data the new user carries; a lookup of the name
    still gives the row that was there. *)
Theorem addUser_existing_name_throws (u : user) (w : world) (r : row) :
  findUserByUsername (user_username u) w = Ok (Some r) ->
  (exists e,
      addUser u w = (w, Err e) /\ (e = ConstraintUnique \/ e = DatabaseFull)) /\
  findUserByUsername (user_username u) (addUser u w).1 = Ok (Some r).
Proof.
  intros H. destruct (addUser_taken u w r H) as (e & He & Hc).
  split; [by eauto|]. by rewrite He.
Qed.

Lemma addUser_existing_name_throws_witness :
  findUserByUsername "alice"
    (addUser {| user_username := "alice"; user_password := "h2"; user_data := None |}
       (addUser {| user_username := "alice"; user_password := "h1"; user_data := None |}
          (initDB NoFault {| db := None; files := NoDirectory |}).1).1).1
  = Ok (Some {| id := 1; username := "alice"; password := "h1"; data := None |}).
Proof.
  refine (proj2 (addUser_existing_name_throws
              {| user_username := "alice"; user_password := "h2"; user_data := None |}
              (addUser {| user_username := "alice"; user_password := "h1"; user_data := None |}
                 (initDB NoFault {| db := None; files := NoDirectory |}).1).1
              {| id := 1; username := "alice"; password := "h1"; data := None |} _)).
  reflexivity.
Defined.

Lemma addUser_lookup_new (u : user) (w w' : world) (i : info) :
  addUser u w = (w', Ok i) ->
  changes i = 1 /\
  findUserByUsername (user_username u) w'
  = Ok (Some {| id := lastInsertRowid i; username := user_username u;
                password := user_password u;
                data := match user_data u with
                        | Some "" => None
                        | d => d
                        end |}).
Proof.
  unfold addUser, findUserByUsername.
  destruct (users_table w) as [t|e] eqn:Ht; [|discriminate].
  destruct (_ <=? _)%Z; [discriminate|].
  destruct (existsb _ _) eqn:Hex; [discriminate|].
  intros [= <- <-]. simpl. split; [done|].
  rewrite find_existsb in Hex. rewrite find_snoc. simpl.
  destruct (List.find _ (rows t)); [discriminate|].
  rewrite String.eqb_refl. do 3 f_equal.
  unfold data_or_null. destruct (user_data u) as [s|]; [|done].
  destruct (String.eqb s "") eqn:Hs.
  - apply String.eqb_eq in Hs. by subst.
  - destruct s; [discriminate|done].
Qed.

Lemma addUser_lookup_other (u : user) (w w' : world) (i : info) other :
  addUser u w = (w', Ok i) ->
  other <> user_username u ->
  findUserByUsername other w' = findUserByUsername other w.
Proof.
  unfold addUser, findUserByUsername.
  destruct (users_table w) as [t|e] eqn:Ht; [|discriminate].
  destruct (_ <=? _)%Z; [discriminate|].
  destruct (existsb _ _); [discriminate|].
  intros [= <- <-] Hne. simpl. rewrite find_snoc. simpl.
  destruct (List.find (fun r => String.eqb (username r) other) (rows t)); [done|].
  destruct (String.eqb (user_username u) other) eqn:He; [|done].
  apply String.eqb_eq in He. congruence.
Qed.

(** X9. A user that was added is found again: when addUser returns, one
    row was changed, a lookup of the name gives a row with the password as
    passed, with the rowid the call reported, and with the data as passed
    except that absent or empty data is stored as NULL; lookups of every
    other name give what they gave before. *)
Theorem addUser_then_find (u : user) (w w' : world) (i : info) :
  addUser u w = (w', Ok i) ->
  changes i = 1 /\
  findUserByUsername (user_username u) w'
  = Ok (Some {| id := lastInsertRowid i; username := user_username u;
                password := user_password u;
                data := match user_data u with
                        | Some "" => None
                        | d => d
                        end |}) /\
  forall other,
    other <> user_username u ->
    findUserByUsername other w' = findUserByUsername other w.
Proof.
  intros H. destruct (addUser_lookup_new u w w' i H) as [Hc Hf].
  split; [done|]. split; [done|]. intros other. by apply (addUser_lookup_other u w w' i).
Qed.

Lemma addUser_then_find_witness :
  findUserByUsername "alice"
    (addUser {| user_username := "alice"; user_password := "h1"; user_data := Some "" |}
       (initDB NoFault {| db := None; files := NoDirectory |}).1).1
  = Ok (Some {| id := 1; username := "alice"; password := "h1"; data := None |}).
Proof.
  refine (proj1 (proj2 (addUser_then_find
            {| user_username := "alice"; user_password := "h1"; user_data := Some "" |}
            (initDB NoFault {| db := None; files := NoDirectory |}).1
            _ {| changes := 1; lastInsertRowid := 1 |} _))).
  reflexivity.
Defined.

End DbFacts.

Section DbInvariants.
Import Db.

Lemma addUser_stored u w w' i :
  addUser u w = (w', Ok i) ->
  exists r,
    stored w' = (stored w ++ [r])%list /\
    username r = user_username u /\
    (username r ∉ username <$> stored w) /\
    (id r ∉ id <$> stored w).
Proof.
  unfold addUser. destruct (users_table w) as [t|e] eqn:Ht; [|discriminate].
  destruct (_ <=? _)%Z; [discriminate|].
  destruct (existsb _ _) eqn:Hex; [discriminate|].
  intros [= <- <-]. rewrite (users_table_stored w t Ht).
  eexists. split; [done|]. simpl. split; [done|]. split.
  - intros (r & Hr & Hin)%list_elem_of_fmap.
    assert (existsb (fun r => String.eqb (username r) (user_username u)) (rows t) = true)
      as Hex'; [|congruence].
    apply existsb_exists. exists r. split; [by apply list_elem_of_In|].
    rewrite <- Hr. apply String.eqb_refl.
  - intros (r & Hr & Hin)%list_elem_of_fmap.
    apply max_id_ge in Hin. lia.
Qed.

Lemma addUser_failed_unchanged u w w' e : addUser u w = (w', Err e) -> w' = w.
Proof.
  unfold addUser. destruct (users_table w) as [t|e']; [|by intros [= <- _]].
  destruct (_ <=? _)%Z; [by intros [= <- _]|].
  destruct (existsb _ _); [by intros [= <- _]|discriminate].
Qed.

Lemma overwriteUserData_columns name newData w :
  username <$> stored (overwriteUserData name newData w).1 = username <$> stored w /\
  id <$> stored (overwriteUserData name newData w).1 = id <$> stored w /\
  password <$> stored (overwriteUserData name newData w).1 = password <$> stored w.
Proof.
  unfold overwriteUserData. destruct (users_table w) as [t|e] eqn:Ht; [|done].
  rewrite (users_table_stored w t Ht). unfold stored. simpl.
  repeat split; rewrite <- list_fmap_compose; apply list_fmap_ext;
    intros j r _; simpl; by destruct (String.eqb _ _).
Qed.

Lemma perform_consistent c w : consistent w -> consistent (perform c w).
Proof.
  intros [Hn Hi]. destruct c as [f|u|name newData|]; simpl.
  - unfold consistent. by rewrite initDB_stored.
  - destruct (addUser u w) as [w' [i|e]] eqn:Ha.
    + apply addUser_stored in Ha as (r & Hs & _ & Hname & Hid).
      unfold consistent. simpl. rewrite Hs, !fmap_app. simpl.
      split; apply NoDup_app; (split; [done|]); (split; [|apply NoDup_singleton]).
      * intros x Hx ->%list_elem_of_singleton. contradiction.
      * intros x Hx ->%list_elem_of_singleton. contradiction.
    + apply addUser_failed_unchanged in Ha. simpl. by subst.
  - destruct (overwriteUserData_columns name newData w) as (Hu & Hd & _).
    unfold consistent. by rewrite Hu, Hd.
  - done.
Qed.

(** X10. The store never holds two users of one name or two rows of one
    id: starting without even a data directory, whatever sequence of initDB
    (failing or not), addUser, overwriteUserData and process restarts is
    made, user names and ids on disk stay pairwise distinct. *)
Theorem store_names_and_ids_stay_distinct (calls : list call) :
  consistent (foldl (fun w c => perform c w) {| db := None; files := NoDirectory |} calls).
Proof.
  assert (forall w, consistent w -> consistent (foldl (fun w c => perform c w) w calls))
    as H.
  { induction calls as [|c calls IH]; intros w Hw; [done|].
    simpl. apply IH. by apply perform_consistent. }
  apply H. split; constructor.
Qed.

(** X11. overwriteUserData touches the data column of one user and nothing
    else: names, ids and passwords of all rows stay as they are; when no
    user has the name, nothing throws, the call reports zero changes and the
    store is unchanged; when a user has it, a lookup afterwards gives that
    user's row with the new data (kept as passed, the empty string
    included), and lookups of other names give what they gave before. *)
Theorem overwriteUserData_changes_one_column (name newData : string) (w : world) :
  (username <$> stored (overwriteUserData name newData w).1 = username <$> stored w /\
   id <$> stored (overwriteUserData name newData w).1 = id <$> stored w /\
   password <$> stored (overwriteUserData name newData w).1 = password <$> stored w) /\
  (findUserByUsername name w = Ok None ->
   exists i, overwriteUserData name newData w = (w, Ok i) /\ changes i = 0) /\
  (forall r,
      findUserByUsername name w = Ok (Some r) ->
      findUserByUsername name (overwriteUserData name newData w).1
      = Ok (Some {| id := id r; username := username r; password := password r;
                    data := Some newData |})) /\
  (forall other,
      other <> name ->
      findUserByUsername other (overwriteUserData name newData w).1
      = findUserByUsername other w).
Proof.
  split; [apply overwriteUserData_columns|].
  unfold findUserByUsername, overwriteUserData.
  destruct (users_table w) as [t|e] eqn:Ht;
    [|split; [discriminate|split; [discriminate|by simpl; rewrite Ht]]].
  assert (users_table
            {| db := db w;
               files := DatabaseFile
                 (Some {| rows := map (fun r => if String.eqb (username r) name
                                                then {| id := id r; username := username r;
                                                        password := password r;
                                                        data := Some newData |}
                                                else r) (rows t);
                          seq := seq t |}) |}
          = Ok {| rows := map (fun r => if String.eqb (username r) name
                                        then {| id := id r; username := username r;
                                                password := password r;
                                                data := Some newData |}
                                        else r) (rows t);
                  seq := seq t |}) as Ht'.
  { unfold users_table in *. simpl. by destruct (db w). }
  simpl. rewrite Ht'. simpl. split; [|split].
  - intros [= Hf]. eexists. split.
    + f_equal. assert (forall l, List.find (fun r => String.eqb (username r) name) l = None ->
                         map (fun r => if String.eqb (username r) name
                                       then {| id := id r; username := username r;
                                               password := password r;
                                               data := Some newData |}
                                       else r) l = l) as Hid.
      { induction l as [|y l IH]; simpl; [done|].
        destruct (String.eqb (username y) name); [discriminate|].
        intros H. by rewrite IH. }
      rewrite Hid by done. unfold users_table in Ht. destruct w as [d fs]. simpl in *.
      destruct d; [|discriminate]. destruct fs as [| |[t'|]]; try discriminate.
      injection Ht as ->. by destruct t.
    + simpl. clear Ht Ht'. induction (rows t) as [|y l IH]; simpl in *; [done|].
      rewrite filter_cons. destruct (String.eqb (username y) name) eqn:Hy; [discriminate|].
      case_decide; [congruence|]. by apply IH.
  - intros r [= Hf]. rewrite find_map_stable.
    + rewrite Hf. simpl. by rewrite (find_true _ _ _ Hf).
    + intros x. by destruct (String.eqb (username x) name) eqn:Hx.
  - intros other Hne. f_equal. clear Ht Ht'.
    induction (rows t) as [|y l IH]; simpl; [done|].
    destruct (String.eqb (username y) name) eqn:Hy; simpl.
    + apply String.eqb_eq in Hy.
      destruct (String.eqb (username y) other) eqn:Ho; [|done].
      apply String.eqb_eq in Ho. congruence.
    + by destruct (String.eqb (username y) other).
Qed.

End DbInvariants.

(** * Properties of the register and login routes *)

Section HttpFacts.

Variable bcrypt_hash : nat -> string -> string.
Variable bcrypt_compare : string -> string -> bool.
Variable jwt_sign : string -> string -> nat -> string.

(** What bcrypt promises: a password matches its own hash. *)
Hypothesis compare_hash : forall salt pass, bcrypt_compare pass (bcrypt_hash salt pass) = true.

Lemma addUser_fresh (u : Db.user) (w : Db.world) (t : Db.table) :
  Db.users_table w = Db.Ok t ->
  (Z.max (Db.seq t) (Db.max_id (Db.rows t)) < Db.largest_rowid)%Z ->
  Db.findUserByUsername (Db.user_username u) w = Db.Ok None ->
  exists w' i, Db.addUser u w = (w', Db.Ok i).
Proof.
  intros Ht Hlt. unfold Db.findUserByUsername, Db.addUser. rewrite Ht.
  intros [= Hf]. destruct (Z.leb_spec Db.largest_rowid
                             (Z.max (Db.seq t) (Db.max_id (Db.rows t)))); [lia|].
  rewrite find_existsb, Hf. by eauto.
Qed.

Lemma register_lookup_complete name pass w :
  name <> "" -> pass <> "" ->
  Http.register_lookup (Some name) (Some pass) w =
  match Db.findUserByUsername name w with
  | Db.Err _ =>
      Http.Answered {| Http.status := 500; Http.json := Http.ErrorBody "Internal server error" |}
  | Db.Ok (Some _) =>
      Http.Answered {| Http.status := 409; Http.json := Http.ErrorBody "Username already exists" |}
  | Db.Ok None => Http.AwaitingHash name pass
  end.
Proof.
  intros Hn Hp. unfold Http.register_lookup.
  apply String.eqb_neq in Hn, Hp. by rewrite Hn, Hp.
Qed.

(** X12. A registration that is not answered with 200 leaves the store
    exactly as it was: a body without username or password (absent or
    empty), a name that is taken, a store that is not open, a failed insert.
    The answer is then 400, 409 or 500, and nothing was written. *)
Theorem register_failure_changes_nothing
    (salt : nat) (name pass : option string) (w w' : Db.world) (r : Http.response) :
  Http.register bcrypt_hash salt name pass w = (w', r) ->
  Http.status r <> 200 ->
  w' = w /\ (Http.status r = 400 \/ Http.status r = 409 \/ Http.status r = 500).
Proof using Type.
  clear compare_hash bcrypt_compare jwt_sign.
  unfold Http.register.
  destruct (Http.register_lookup name pass w) as [r0|name' pass'] eqn:Hl.
  - intros [= <- <-] _. split; [done|].
    unfold Http.register_lookup in Hl.
    destruct name as [name|], pass as [pass|]; try (injection Hl as <-; simpl; tauto).
    destruct (_ || _); [injection Hl as <-; simpl; tauto|].
    destruct (Db.findUserByUsername name w) as [[row|]|e];
      try (injection Hl as <-; simpl; tauto). discriminate.
  - unfold Http.register_insert.
    destruct (Db.addUser _ w) as [w1 [i|e]] eqn:Ha.
    + intros [= <- <-]. simpl. done.
    + intros [= <- <-] _. apply addUser_failed_unchanged in Ha. simpl. tauto.
Qed.


(** X14. Register, then log in: on an open store with room for a row, a
    body with a fresh name and a password is answered 200; the stored
    password is the bcrypt hash, not the password; a login with the same
    password is answered 200 with the token signed for that name; and a
    login with a password bcrypt does not accept is answered 401. *)
Theorem register_then_login
    (salt : nat) (secret : option string) (now : nat)
    (name pass : string) (w : Db.world) (t : Db.table) :
  name <> "" -> pass <> "" ->
  Db.users_table w = Db.Ok t ->
  (Z.max (Db.seq t) (Db.max_id (Db.rows t)) < Db.largest_rowid)%Z ->
  Db.findUserByUsername name w = Db.Ok None ->
  exists w' row,
    Http.register bcrypt_hash salt (Some name) (Some pass) w
    = (w', {| Http.status := 200;
              Http.json := Http.MessageBody "User registered successfully" |}) /\
    Db.findUserByUsername name w' = Db.Ok (Some row) /\
    Db.username row = name /\
    Db.password row = bcrypt_hash salt pass /\
    Http.login bcrypt_compare jwt_sign secret now name (Some pass) w'
    = {| Http.status := 200;
         Http.json := Http.TokenBody
                        (jwt_sign name
                           (match secret with
                            | Some s => if String.eqb s "" then "secretkey" else s
                            | None => "secretkey"
                            end) now) |} /\
    (forall wrong,
        bcrypt_compare wrong (bcrypt_hash salt pass) = false ->
        Http.login bcrypt_compare jwt_sign secret now name (Some wrong) w'
        = {| Http.status := 401;
             Http.json := Http.ErrorBody "Invalid username or password" |}).
Proof.
  intros Hn Hp Ht Hlt Hf.
  destruct (addUser_fresh {| Db.user_username := name;
                             Db.user_password := bcrypt_hash salt pass;
                             Db.user_data := None |} w t Ht Hlt Hf) as (w' & i & Ha).
  destruct (addUser_lookup_new _ _ _ _ Ha) as (_ & Hfind). simpl in Hfind.
  exists w'. eexists. split; [|split; [exact Hfind|]].
  - unfold Http.register, Http.register_insert.
    by rewrite register_lookup_complete, Hf, Ha.
  - simpl. split; [done|]. split; [done|].
    unfold Http.login. rewrite Hfind. simpl. split.
    + by rewrite compare_hash.
    + intros wrong Hw. by rewrite Hw.
Qed.

(** X15. A failed login does not tell an unknown name from a wrong
    password: both are answered 401 with the same body.  A body without a
    password does tell them apart: for an unknown name it is answered 401,
    for a stored name bcrypt.compare rejects and the answer is 500. *)
Theorem login_failures
    (secret : option string) (now : nat)
    (unknown known pass1 pass2 : string) (w : Db.world) (row : Db.row) :
  Db.findUserByUsername unknown w = Db.Ok None ->
  Db.findUserByUsername known w = Db.Ok (Some row) ->
  bcrypt_compare pass2 (Db.password row) = false ->
  Http.login bcrypt_compare jwt_sign secret now unknown (Some pass1) w
  = Http.login bcrypt_compare jwt_sign secret now known (Some pass2) w /\
  Http.status (Http.login bcrypt_compare jwt_sign secret now unknown (Some pass1) w) = 401 /\
  Http.status (Http.login bcrypt_compare jwt_sign secret now unknown None w) = 401 /\
  Http.status (Http.login bcrypt_compare jwt_sign secret now known None w) = 500.
Proof.
  intros Hu Hk Hc. unfold Http.login. by rewrite Hu, Hk, Hc.
Qed.

(** X16. Two registrations of one fresh name that overlap: both pass the
    lookup before either has its hash; the first to insert is answered 200,
    the insert of the second throws because the name is now taken and the
    answer is 500 (not 409), with the store unchanged; the store holds the
    user with the first one's hash. *)
Theorem overlapping_registrations
    (salt1 salt2 : nat) (name pass1 pass2 : string) (w : Db.world) (t : Db.table) :
  name <> "" -> pass1 <> "" -> pass2 <> "" ->
  Db.users_table w = Db.Ok t ->
  (Z.max (Db.seq t) (Db.max_id (Db.rows t)) < Db.largest_rowid)%Z ->
  Db.findUserByUsername name w = Db.Ok None ->
  Http.register_lookup (Some name) (Some pass1) w = Http.AwaitingHash name pass1 /\
  Http.register_lookup (Some name) (Some pass2) w = Http.AwaitingHash name pass2 /\
  exists w1 row,
    Http.register_insert bcrypt_hash salt1 name pass1 w
    = (w1, {| Http.status := 200;
              Http.json := Http.MessageBody "User registered successfully" |}) /\
    Http.register_insert bcrypt_hash salt2 name pass2 w1
    = (w1, {| Http.status := 500; Http.json := Http.ErrorBody "Internal server error" |}) /\
    Db.findUserByUsername name w1 = Db.Ok (Some row) /\
    Db.password row = bcrypt_hash salt1 pass1.
Proof.
  intros Hn Hp1 Hp2 Ht Hlt Hf.
  split; [by rewrite register_lookup_complete, Hf|].
  split; [by rewrite register_lookup_complete, Hf|].
  destruct (addUser_fresh {| Db.user_username := name;
                             Db.user_password := bcrypt_hash salt1 pass1;
                             Db.user_data := None |} w t Ht Hlt Hf) as (w1 & i & Ha).
  destruct (addUser_lookup_new _ _ _ _ Ha) as (_ & Hfind). simpl in Hfind.
  destruct (addUser_taken
              {| Db.user_username := name;
                 Db.user_password := bcrypt_hash salt2 pass2;
                 Db.user_data := None |} w1 _ Hfind) as (e & He & _).
  exists w1. eexists. split; [|split; [|split; [exact Hfind|done]]].
  - unfold Http.register_insert. by rewrite Ha.
  - unfold Http.register_insert. by rewrite He.
Qed.

End HttpFacts.

Lemma register_failure_changes_nothing_witness :
  (Http.register example_hash 0 (Some "alice") (Some "") open_store).1 = open_store.
Proof.
  refine (proj1 (register_failure_changes_nothing example_hash 0 (Some "alice") (Some "")
                   open_store open_store
                   {| Http.status := 400;
                      Http.json := Http.ErrorBody "Username and password required" |} _ _)).
  - reflexivity.
  - simpl. discriminate.
Defined.


Lemma register_then_login_witness :
  exists w' row,
    Http.register example_hash 0 (Some "alice") (Some "wonderland") open_store
    = (w', {| Http.status := 200;
              Http.json := Http.MessageBody "User registered successfully" |}) /\
    Db.findUserByUsername "alice" w' = Db.Ok (Some row) /\
    Http.login example_compare example_sign None 0 "alice" (Some "wonderland") w'
    = {| Http.status := 200; Http.json := Http.TokenBody "alice/secretkey" |}.
Proof.
  destruct (register_then_login example_hash example_compare example_sign
              (fun salt pass => String.eqb_refl (example_hash 0 pass))
              0 None 0 "alice" "wonderland" open_store
              {| Db.rows := []; Db.seq := 0 |})
    as (w' & row & Hr & Hf & _ & _ & Hl & _).
  - discriminate.
  - discriminate.
  - reflexivity.
  - reflexivity.
  - reflexivity.
  - exists w', row. split; [exact Hr|]. split; [exact Hf|exact Hl].
Defined.

Lemma login_failures_witness :
  Http.login example_compare example_sign None 0 "bob" (Some "x") alice_registered
  = Http.login example_compare example_sign None 0 "alice" (Some "x") alice_registered.
Proof.
  refine (proj1 (login_failures example_compare example_sign None 0
                   "bob" "alice" "x" "x" alice_registered
                   {| Db.id := 1; Db.username := "alice";
                      Db.password := "hash:wonderland"; Db.data := None |} _ _ _));
    reflexivity.
Defined.

Lemma overlapping_registrations_witness :
  exists w1 row,
    Http.register_insert example_hash 0 "alice" "wonderland" open_store
    = (w1, {| Http.status := 200;
              Http.json := Http.MessageBody "User registered successfully" |}) /\
    Http.register_insert example_hash 1 "alice" "looking-glass" w1
    = (w1, {| Http.status := 500; Http.json := Http.ErrorBody "Internal server error" |}) /\
    Db.findUserByUsername "alice" w1 = Db.Ok (Some row) /\
    Db.password row = "hash:wonderland".
Proof.
  refine (proj2 (proj2 (overlapping_registrations example_hash 0 1
                          "alice" "wonderland" "looking-glass" open_store
                          {| Db.rows := []; Db.seq := 0 |} _ _ _ _ _ _))).
  - discriminate.
  - discriminate.
  - discriminate.
  - reflexivity.
  - reflexivity.
  - reflexivity.
Defined.

(** * How the process starts *)


(** * Properties of the in-memory user store *)

(** X18. In the in-memory store the first user added under a name is the
    one every lookup gives, for good: addUser accepts a second user of the
    same name without complaint, and that user is never found. *)
Theorem UserModel_first_added_is_found
    (users : list UserModel.user) (name : string) (first later : UserModel.user) :
  UserModel.findUserByUsername name users = Some first ->
  UserModel.findUserByUsername name (UserModel.addUser later users) = Some first /\
  length (UserModel.addUser later users) = S (length users).
Proof.
  unfold UserModel.findUserByUsername, UserModel.addUser. intros H.
  rewrite find_snoc, H, length_app. simpl. split; [done|lia].
Qed.

Lemma UserModel_first_added_is_found_witness :
  UserModel.findUserByUsername "alice"
    (UserModel.addUser (UserModel.User "alice" "h2" [])
       (UserModel.addUser (UserModel.User "alice" "h1" []) []))
  = Some (UserModel.User "alice" "h1" []).
Proof.
  refine (proj1 (UserModel_first_added_is_found
                   (UserModel.addUser (UserModel.User "alice" "h1" []) [])
                   "alice" (UserModel.User "alice" "h1" [])
                   (UserModel.User "alice" "h2" []) _)).
  reflexivity.
Defined.

(** X19. A user added under a name nobody has is found under that name, and
    lookups of all other names give what they gave before. *)
Theorem UserModel_add_then_find (users : list UserModel.user) (u : UserModel.user) :
  UserModel.findUserByUsername (UserModel.username u) users = None ->
  UserModel.findUserByUsername (UserModel.username u) (UserModel.addUser u users)
  = Some u /\
  forall other,
    other <> UserModel.username u ->
    UserModel.findUserByUsername other (UserModel.addUser u users)
    = UserModel.findUserByUsername other users.
Proof.
  unfold UserModel.findUserByUsername, UserModel.addUser. intros H. split.
  - by rewrite find_snoc, H, String.eqb_refl.
  - intros other Hne. rewrite find_snoc.
    destruct (List.find (fun v => String.eqb (UserModel.username v) other) users);
      [done|].
    destruct (String.eqb (UserModel.username u) other) eqn:He; [|done].
    apply String.eqb_eq in He. congruence.
Qed.

Lemma UserModel_add_then_find_witness :
  UserModel.findUserByUsername "bob"
    (UserModel.addUser (UserModel.User "bob" "h" [])
       (UserModel.addUser (UserModel.User "alice" "h1" []) []))
  = Some (UserModel.User "bob" "h" []).
Proof.
  refine (proj1 (UserModel_add_then_find
                   (UserModel.addUser (UserModel.User "alice" "h1" []) [])
                   (UserModel.User "bob" "h" []) _)).
  reflexivity.
Defined.

(** * Properties of getUsernameFromToken *)

Section TokenFacts.

Variable atob : string -> option string.
Variable JSON_parse_text : string -> completion value.

Lemma split_dot_segment first rest :
  dot_free first = true ->
  App.split_dot (first ++ "." ++ rest) = first :: App.split_dot rest.
Proof.
  induction first as [|c first IH]; simpl; [done|].
  destruct (Ascii.eqb c _); simpl; [done|].
  intros H. by rewrite (IH H).
Qed.

Lemma split_dot_first first rest :
  dot_free first = true ->
  exists more, App.split_dot (first ++ "." ++ rest) = first :: more.
Proof. intros H. rewrite split_dot_segment by done. by eauto. Qed.

(** X20. The name shown for a token depends on its second dot-separated
    segment alone: header and signature are not looked at, so two tokens
    with the same payload segment give the same name whatever their other
    parts are, signed or not. *)
Theorem token_name_ignores_header_and_signature
    (header header' payload signature signature' : string) :
  dot_free header = true ->
  dot_free header' = true ->
  dot_free payload = true ->
  App.getUsernameFromToken atob JSON_parse_text
    (header ++ "." ++ payload ++ "." ++ signature)
  = App.getUsernameFromToken atob JSON_parse_text
      (header' ++ "." ++ payload ++ "." ++ signature').
Proof.
  intros Hh Hh' Hp.
  assert (forall h sig, dot_free h = true ->
            App.getUsernameFromToken atob JSON_parse_text (h ++ "." ++ payload ++ "." ++ sig)
            = match atob payload with
              | None => VStr ""
              | Some text =>
                  match JSON_parse_text text with
                  | Throw _ => VStr ""
                  | Normal parsed =>
                      match App.payload_username parsed with
                      | Throw _ => VStr ""
                      | Normal name =>
                          if ToBoolean name then default (VStr "") name else VStr ""
                      end
                  end
              end) as H.
  { intros h sig Hdf. unfold App.getUsernameFromToken.
    assert (String.eqb (h ++ "." ++ payload ++ "." ++ sig) "" = false) as ->.
    { apply String.eqb_neq. by destruct h. }
    rewrite (split_dot_segment h) by done.
    destruct (split_dot_first payload sig Hp) as (more & ->). done. }
  by rewrite (H header signature Hh), (H header' signature' Hh').
Qed.

End TokenFacts.

Lemma token_name_ignores_header_and_signature_witness :
  App.getUsernameFromToken (fun s => Some s)
    (fun s => Normal (VObj [("username", VStr s)])) "header.alice.signature"
  = App.getUsernameFromToken (fun s => Some s)
      (fun s => Normal (VObj [("username", VStr s)])) "x.alice.".
Proof.
  refine (token_name_ignores_header_and_signature (fun s => Some s)
            (fun s => Normal (VObj [("username", VStr s)]))
            "header" "x" "alice" "signature" "" _ _ _); reflexivity.
Defined.

(** * Requests that name the same cell *)

Lemma second_request_adds_nothing s ws1 ws2 m1 m2 key1 key2 c1 c2 u1 u2 k :
  is_listening ws1 s = true ->
  as_placement m1 = Some (key1, c1, u1) ->
  as_placement m2 = Some (key2, c2, u2) ->
  ToPropertyKey key1 = Some k ->
  ToPropertyKey key2 = Some k ->
  gridState s !! k = None ->
  inherited k = false ->
  run [Message ws1 m1; Message ws2 m2] s = step (Message ws1 m1) s.
Proof.
  intros Hl1 Hp1 Hp2 Hk1 Hk2 Hn Hi.
  rewrite run_cons, (step_accept s ws1 m1 key1 c1 u1 k) by done.
  destruct (logged u1) as [[]|e]; [|done].
  rewrite run_cons, (step_rejected _ ws2 m2 key2 c2 u2 k); [done..|].
  unfold grid_read. simpl. by rewrite lookup_insert_eq.
Qed.

(** X21. Cells are told apart by the property name their key converts to,
    not by the key as sent (the number 5 and the string "5" are one cell).
    When two requests name the same free cell, whichever is handled first is
    the only one accepted and its occupant is installed; handling the other
    one after it changes nothing at all, so the run of both equals the
    handling of the first alone.  This holds in both orders. *)
Theorem same_cell_requests_in_either_order
    (s : Server) (ws1 ws2 : nat) (m1 m2 : RawData)
    (key1 key2 c1 c2 u1 u2 : value) (k : string) :
  is_listening ws1 s = true ->
  is_listening ws2 s = true ->
  as_placement m1 = Some (key1, c1, u1) ->
  as_placement m2 = Some (key2, c2, u2) ->
  ToPropertyKey key1 = Some k ->
  ToPropertyKey key2 = Some k ->
  gridState s !! k = None ->
  inherited k = false ->
  (run [Message ws1 m1; Message ws2 m2] s = step (Message ws1 m1) s /\
   accepted_log [Message ws1 m1; Message ws2 m2] s
   = [(k, {| color := c1; username := u1 |})] /\
   gridState (run [Message ws1 m1; Message ws2 m2] s).1 !! k
   = Some {| color := c1; username := u1 |}) /\
  (run [Message ws2 m2; Message ws1 m1] s = step (Message ws2 m2) s /\
   accepted_log [Message ws2 m2; Message ws1 m1] s
   = [(k, {| color := c2; username := u2 |})] /\
   gridState (run [Message ws2 m2; Message ws1 m1] s).1 !! k
   = Some {| color := c2; username := u2 |}).
Proof.
  intros Hl1 Hl2 Hp1 Hp2 Hk1 Hk2 Hn Hi. split.
  - split; [by apply (second_request_adds_nothing s ws1 ws2 m1 m2 key1 key2 c1 c2 u1 u2 k)|].
    by apply (race_first_handled_wins s ws1 ws2 m1 m2 key1 key2 c1 c2 u1 u2 k).
  - split; [by apply (second_request_adds_nothing s ws2 ws1 m2 m1 key2 key1 c2 c1 u2 u1 k)|].
    by apply (race_first_handled_wins s ws2 ws1 m2 m1 key2 key1 c2 c1 u2 u1 k).
Qed.

Lemma same_cell_requests_in_either_order_witness :
  gridState
    (run [Message 0 (colorCell (VNum "5") (VStr "red") (VStr "alice"));
          Message 1 (colorCell (VStr "5") (VStr "blue") (VStr "bob"))] two_clients).1
  !! "5"
  = Some {| color := VStr "red"; username := VStr "alice" |}.
Proof.
  refine (proj2 (proj2 (proj1 (same_cell_requests_in_either_order two_clients 0 1
            (colorCell (VNum "5") (VStr "red") (VStr "alice"))
            (colorCell (VStr "5") (VStr "blue") (VStr "bob"))
            (VNum "5") (VStr "5") (VStr "red") (VStr "blue") (VStr "alice") (VStr "bob")
            "5" _ _ _ _ _ _ _ _)))); reflexivity.
Defined.
